(** * Cursor positions and motions of [src/motion/position.ts]

    A shallow embedding of the [Position] class: caret-mode arithmetic,
    vertical and horizontal single steps, paragraph motions and the
    word / big-word motions driven by a global regular expression.

    Conventions of the embedding.
    - [line] and [character] are natural numbers: the constructor of
      [vscode.Position] rejects negative coordinates, and every
      subtraction in the source is guarded by a test against [0].
    - A line of text is a [string]; each [ascii] stands for one UTF-16
      code unit below 256.
    - A method that may throw returns a [result]; loops whose termination
      is not structural take a [fuel] argument and answer [OutOfFuel] when
      it is exhausted. *)

From Stdlib Require Import List String Ascii ZArith Arith Bool Lia.
From Stdlib Require Import Sorted.
Import ListNotations.

Local Open Scope string_scope.
Local Open Scope nat_scope.

(** ** Outcomes *)

Inductive error : Type :=
| IllegalLine (lineNo : nat)
| UnhandledPositionOptions (options : option Z).

Inductive result (A : Type) : Type :=
| Ok (a : A)
| Throw (e : error)
| OutOfFuel.

Arguments Ok {A} a.
Arguments Throw {A} e.
Arguments OutOfFuel {A}.

Definition bind {A B : Type} (m : result A) (k : A -> result B) : result B :=
  match m with
  | Ok a => k a
  | Throw e => Throw e
  | OutOfFuel => OutOfFuel
  end.

Notation "x <- m ;; k" := (bind m (fun x => k))
  (at level 61, m at next level, right associativity).

(** [while (cond) { s = body(s) }], with the number of evaluations of the
    condition bounded by [fuel]. *)
Fixpoint while {S : Type} (fuel : nat) (cond : S -> result bool)
    (body : S -> result S) (s : S) : result S :=
  match fuel with
  | O => OutOfFuel
  | Datatypes.S fuel' =>
      c <- cond s ;;
      if c then s' <- body s ;; while fuel' cond body s' else Ok s
  end.

(** ** Caret modes

    [enum PositionOptions] is a numeric TypeScript enum; the field
    [positionOptions] is initialised to [null] and accepts any number at
    run time, so its run-time value is an optional integer. *)

Module PositionOptions.
Definition CharacterWiseInclusive : Z := 0.
Definition CharacterWiseExclusive : Z := 1.
End PositionOptions.

Definition Inclusive : option Z := Some PositionOptions.CharacterWiseInclusive.
Definition Exclusive : option Z := Some PositionOptions.CharacterWiseExclusive.

Record Position : Type := newPosition {
  line : nat;
  character : nat;
  positionOptions : option Z
}.

(** The two caret modes that [getLineLength] handles. *)
Definition recognised (options : option Z) : Prop :=
  options = Exclusive \/ options = Inclusive.

(** A position on an existing line, with a handled caret mode. *)
Definition onDocument (doc : list string) (p : Position) : Prop :=
  line p < List.length doc /\ recognised (positionOptions p).

(** ** Character classes *)

(** [\s] of JavaScript regular expressions, on code units below 256. *)
Definition isWhitespace (c : ascii) : bool :=
  let n := nat_of_ascii c in
  (n =? 9) || (n =? 10) || (n =? 11) || (n =? 12) || (n =? 13)
  || (n =? 32) || (n =? 160).

(** The class [[\t ]]. *)
Definition isTabOrSpace (c : ascii) : bool :=
  let n := nat_of_ascii c in (n =? 9) || (n =? 32).

(** Length of the longest prefix of [s] whose characters are all in [cls]. *)
Fixpoint runLength (cls : ascii -> bool) (s : list ascii) : nat :=
  match s with
  | c :: s' => if cls c then S (runLength cls s') else 0
  | [] => 0
  end.

(** ** The text buffer *)

Definition Document : Type := list string.

Record TextLine : Type := mkTextLine {
  lineNumber : nat;
  text : string;
  firstNonWhitespaceCharacterIndex : nat
}.

Module TextEditor.

(** Modelled from the spec: [TextEditor.getLineCount] of
    [src/textEditor.ts], the buffer collaborator's [lineCount()]. *)
Definition getLineCount (doc : Document) : nat := List.length doc.

(** Modelled from the spec: [TextEditor.readLineAt] of
    [src/textEditor.ts], the collaborator's [lineText(line)], which fails
    for an out-of-range line. *)
Definition readLineAt (doc : Document) (lineNo : nat) : result string :=
  match nth_error doc lineNo with
  | Some t => Ok t
  | None => Throw (IllegalLine lineNo)
  end.

(** Modelled from the spec: [TextEditor.getLineAt] of
    [src/textEditor.ts]; it hands out the host editor's line object, whose
    [firstNonWhitespaceCharacterIndex] is the collaborator's
    [firstNonWhitespaceOffset(line)]: the length of the leading [\s] run. *)
Definition getLineAt (doc : Document) (position : Position) : result TextLine :=
  match nth_error doc (line position) with
  | Some t =>
      Ok (mkTextLine (line position) t
            (runLength isWhitespace (list_ascii_of_string t)))
  | None => Throw (IllegalLine (line position))
  end.

(** Modelled from the spec: [TextEditor.isFirstLine] of
    [src/textEditor.ts]. *)
Definition isFirstLine (doc : Document) (position : Position) : bool :=
  line position =? 0.

(** Modelled from the spec: [TextEditor.isLastLine] of
    [src/textEditor.ts]: [line === lineCount - 1] on integers. *)
Definition isLastLine (doc : Document) (position : Position) : bool :=
  S (line position) =? getLineCount doc.

End TextEditor.

(** ** Regular expressions

    The fragment of JavaScript regular expressions that [makeWordRegex]
    builds: an alternation whose branches are sequences of anchors and
    greedy repetitions of a character class.  Neither the [m] nor the [y]
    flag is set; the [g] flag is, so [exec] starts at [lastIndex]. *)

Inductive Atom : Type :=
| Bol
| Eol
| Repeat (cls : ascii -> bool) (atLeast : nat).

Definition RegExp : Type := list (list Atom).

(** Match a branch at offset [i]; the answer is the end offset.  A greedy
    repetition first takes the longest run and gives characters back one
    at a time while the rest of the branch fails. *)
Fixpoint matchAtoms (atoms : list Atom) (input : list ascii) (i : nat) : option nat :=
  match atoms with
  | [] => Some i
  | Bol :: rest => if i =? 0 then matchAtoms rest input i else None
  | Eol :: rest => if i =? List.length input then matchAtoms rest input i else None
  | Repeat cls atLeast :: rest =>
      (fix backtrack (k : nat) : option nat :=
         if k <? atLeast then None
         else
           match matchAtoms rest input (i + k) with
           | Some e => Some e
           | None =>
               match k with
               | O => None
               | S k' => backtrack k'
               end
           end) (runLength cls (skipn i input))
  end.

(** The branches are tried from left to right. *)
Fixpoint matchBranches (branches : RegExp) (input : list ascii) (i : nat) : option nat :=
  match branches with
  | [] => None
  | b :: branches' =>
      match matchAtoms b input i with
      | Some e => Some e
      | None => matchBranches branches' input i
      end
  end.

(** Try the start offsets [i], [i+1], ... in turn, [steps] of them. *)
Fixpoint execFrom (steps : nat) (regex : RegExp) (input : list ascii) (i : nat) : option (nat * nat) :=
  match steps with
  | O => None
  | S steps' =>
      match matchBranches regex input i with
      | Some e => Some (i, e)
      | None => execFrom steps' regex input (S i)
      end
  end.

(** What the motions read of the array returned by [exec]: [result.index]
    and [result[0].length]. *)
Record ExecResult : Type := mkExecResult {
  index : nat;
  matchLength : nat
}.

(** [regex.exec(input)] for a global expression whose [lastIndex] is
    [lastIndex]: the result ([None] for [null]) and the new [lastIndex],
    which is the end offset of the match, or [0] after a failure.  Start
    offsets up to and including the length of the input are tried. *)
Definition exec (regex : RegExp) (input : string) (lastIndex : nat) : option ExecResult * nat :=
  let s := list_ascii_of_string input in
  match execFrom (S (List.length s) - lastIndex) regex s lastIndex with
  | Some (i, e) => (Some (mkExecResult i (e - i)), e)
  | None => (None, 0)
  end.

(** Membership in a bracketed class made of the (escaped) characters of
    [characterSet].  [_.escapeRegExp] leaves [-] alone, so this reading of
    the class is the source's when no [-] stands between two characters of
    the set: the case of both sets of the class, [NonWordCharacters],
    whose only [-] is its last character, and the empty
    [NonBigWordCharacters]. *)
Definition inCharacterSet (characterSet : string) (c : ascii) : bool :=
  existsb (Ascii.eqb c) (list_ascii_of_string characterSet).

(** [(^[\t ]*$)|([^\s<escaped>]+)|[<escaped>]+] with the [g] flag. *)
Definition makeWordRegex (characterSet : string) : RegExp :=
  [ [Bol; Repeat isTabOrSpace 0; Eol];
    [Repeat (fun c => negb (isWhitespace c || inCharacterSet characterSet c)) 1];
    [Repeat (inCharacterSet characterSet) 1] ].

(** The characters of [Position.NonWordCharacters]; the double quote is
    code unit 34. *)
Definition NonWordCharacters : string :=
  "/\()" ++ String (ascii_of_nat 34) "':,.;<>~!@#$%^&*|+=[]{}`?-".

Definition NonBigWordCharacters : string := EmptyString.

Definition _nonWordCharRegex : RegExp := makeWordRegex NonWordCharacters.
Definition _nonBigWordCharRegex : RegExp := makeWordRegex NonBigWordCharacters.

(** The loop that each word motion runs after [regex.lastIndex = 0]:
    [while (true) { let result = regex.exec(text); if (result === null)
    break; positions.push(...) }].  [collect] is the value pushed. *)
Fixpoint scanLoop {A : Type} (fuel : nat) (regex : RegExp) (input : string)
    (collect : ExecResult -> A) (lastIndex : nat) (positions : list A) : result (list A) :=
  match fuel with
  | O => OutOfFuel
  | S fuel' =>
      match exec regex input lastIndex with
      | (None, _) => Ok positions
      | (Some r, lastIndex') =>
          scanLoop fuel' regex input collect lastIndex' (positions ++ [collect r])
      end
  end.

(** ** Position: coordinate and caret-mode arithmetic *)

Section Motions.

Variable doc : Document.

Definition getLineLength (lineNo : nat) (options : option Z) : result nat :=
  match options with
  | Some v =>
      if (v =? PositionOptions.CharacterWiseExclusive)%Z then
        t <- TextEditor.readLineAt doc lineNo ;;
        let len := String.length t in
        Ok (if 0 <? len then len - 1 else len)
      else if (v =? PositionOptions.CharacterWiseInclusive)%Z then
        t <- TextEditor.readLineAt doc lineNo ;;
        Ok (String.length t)
      else Throw (UnhandledPositionOptions options)
  | None => Throw (UnhandledPositionOptions options)
  end.

Definition setLocation (this : Position) (l c : nat) : Position :=
  newPosition l c (positionOptions this).

Definition isLineBeginning (this : Position) : bool :=
  character this =? 0.

Definition isLineEnd (this : Position) : result bool :=
  len <- getLineLength (line this) (positionOptions this) ;;
  Ok (character this =? len).

Definition getLeft (this : Position) : Position :=
  if negb (isLineBeginning this) then
    newPosition (line this) (character this - 1) (positionOptions this)
  else this.

Definition getRight (this : Position) : result Position :=
  atEnd <- isLineEnd this ;;
  if negb atEnd then
    Ok (newPosition (line this) (character this + 1) (positionOptions this))
  else Ok this.

Definition getLineBegin (this : Position) : Position :=
  newPosition (line this) 0 (positionOptions this).

Definition getLineEnd (this : Position) : result Position :=
  len <- getLineLength (line this) (positionOptions this) ;;
  Ok (newPosition (line this) len (positionOptions this)).

Definition getDocumentBegin (this : Position) : Position :=
  newPosition 0 0 (positionOptions this).

Definition getDocumentEnd (this : Position) : result Position :=
  let lineCount := TextEditor.getLineCount doc in
  let l := if 0 <? lineCount then lineCount - 1 else 0 in
  char <- getLineLength l (positionOptions this) ;;
  Ok (newPosition l char (positionOptions this)).

Definition getDown (this : Position) (desiredColumn : nat) : result Position :=
  docEnd <- getDocumentEnd this ;;
  if negb (line docEnd =? line this) then
    let nextLine := line this + 1 in
    nextLineLength <- getLineLength nextLine (positionOptions this) ;;
    Ok (newPosition nextLine (Nat.min nextLineLength desiredColumn)
          (positionOptions this))
  else Ok this.

Definition getUp (this : Position) (desiredColumn : nat) : result Position :=
  if negb (line (getDocumentBegin this) =? line this) then
    let prevLine := line this - 1 in
    prevLineLength <- getLineLength prevLine (positionOptions this) ;;
    Ok (newPosition prevLine (Nat.min prevLineLength desiredColumn)
          (positionOptions this))
  else Ok this.

Definition isValid (this : Position) : result bool :=
  let lineCount := TextEditor.getLineCount doc in
  if lineCount <? line this then Ok false
  else
    charCount <- getLineLength (line this) (positionOptions this) ;;
    if charCount <? character this then Ok false
    else
      match positionOptions this with
      | None => Ok false
      | Some _ => Ok true
      end.

(** ** Paragraph motions *)

(** Conditions of the two loops of [getCurrentParagraphEnd]. *)
Definition paragraphEndSkipBlank (pos : Position) : result bool :=
  l <- TextEditor.getLineAt doc pos ;;
  Ok (String.eqb (text l) EmptyString && negb (TextEditor.isLastLine doc pos)).

Definition paragraphEndInside (pos : Position) : result bool :=
  l <- TextEditor.getLineAt doc pos ;;
  Ok (negb (String.eqb (text l) EmptyString)
      && (S (line pos) <? TextEditor.getLineCount doc)).

Definition getCurrentParagraphEnd (fuel : nat) (this : Position) : result Position :=
  pos <- while fuel paragraphEndSkipBlank (fun pos => getDown pos 0) this ;;
  pos <- while fuel paragraphEndInside (fun pos => getDown pos 0) pos ;;
  getLineEnd pos.

(** Conditions of the two loops of [getCurrentParagraphBeginning]. *)
Definition paragraphBeginSkipBlank (pos : Position) : result bool :=
  l <- TextEditor.getLineAt doc pos ;;
  Ok (String.eqb (text l) EmptyString && negb (TextEditor.isFirstLine doc pos)).

Definition paragraphBeginInside (pos : Position) : result bool :=
  if 0 <? line pos then
    l <- TextEditor.getLineAt doc pos ;;
    Ok (negb (String.eqb (text l) EmptyString))
  else Ok false.

Definition getCurrentParagraphBeginning (fuel : nat) (this : Position) : result Position :=
  pos <- while fuel paragraphBeginSkipBlank (fun pos => getUp pos 0) this ;;
  pos <- while fuel paragraphBeginInside (fun pos => getUp pos 0) pos ;;
  Ok (getLineBegin pos).

(** ** Word motions *)

(** [vscode.Position.translate(lineDelta)]. *)
Definition translate (this : Position) (lineDelta : nat) : Position :=
  newPosition (line this + lineDelta) (character this) (positionOptions this).

(** [!TextEditor.isLastLine(this) && this.character >= this.getLineEnd().character];
    the line end is only computed when the first conjunct holds. *)
Definition atLineEndOfInnerLine (this : Position) : result bool :=
  if negb (TextEditor.isLastLine doc this) then
    e <- getLineEnd this ;;
    Ok (character e <=? character this)
  else Ok false.

(** The two [// go to next line] blocks of [getWordRightWithRegex]. *)
Definition goToNextLine (this : Position) : result Position :=
  l <- TextEditor.getLineAt doc (translate this 1) ;;
  Ok (newPosition (lineNumber l) (firstNonWhitespaceCharacterIndex l)
        (positionOptions this)).

Definition getWordLeftWithRegex (fuel : nat) (this : Position) (regex : RegExp) : result Position :=
  currentLine <- TextEditor.getLineAt doc this ;;
  search <-
    (if negb (TextEditor.isFirstLine doc this)
        && (character this <=? firstNonWhitespaceCharacterIndex currentLine)
     then
       let workingPosition :=
         newPosition (line this - 1) (character this) (positionOptions this) in
       currentLine <- TextEditor.getLineAt doc workingPosition ;;
       e <- getLineEnd workingPosition ;;
       Ok (workingPosition, currentLine, character e + 1)
     else
       Ok (newPosition (line this) (character this) (positionOptions this),
           currentLine, character this)) ;;
  let '(workingPosition, currentLine, currentCharacter) := search in
  positions <- scanLoop fuel regex (text currentLine) index 0 [] ;;
  match find (fun position => position <? currentCharacter) (rev positions) with
  | Some position =>
      Ok (newPosition (line workingPosition) position
            (positionOptions workingPosition))
  | None =>
      if line this =? 0 then Ok (getLineBegin this)
      else getLineEnd (newPosition (line this - 1) 0 (positionOptions this))
  end.

Definition getWordRightWithRegex (fuel : nat) (this : Position) (regex : RegExp) : result Position :=
  atEnd <- atLineEndOfInnerLine this ;;
  if atEnd then goToNextLine this
  else
    currentLine <- TextEditor.getLineAt doc this ;;
    positions <- scanLoop fuel regex (text currentLine) index 0 [] ;;
    match find (fun position => character this <? position) positions with
    | Some position =>
        Ok (newPosition (line this) position (positionOptions this))
    | None =>
        docEnd <- getDocumentEnd this ;;
        if line this =? line docEnd then getLineEnd this
        else goToNextLine this
    end.

(** The offset pushed by [getCurrentWordEndWithRegex],
    [result.index + result[0].length - 1], is [-1] for an empty match. *)
Definition wordEndOffset (r : ExecResult) : Z :=
  (Z.of_nat (index r) + Z.of_nat (matchLength r) - 1)%Z.

Definition getCurrentWordEndWithRegex (fuel : nat) (this : Position) (regex : RegExp) : result Position :=
  currentLine <- TextEditor.getLineAt doc this ;;
  atEnd <- atLineEndOfInnerLine this ;;
  search <-
    (if atEnd then
       let workingPosition :=
         newPosition (line this + 1) (character this) (positionOptions this) in
       currentLine <- TextEditor.getLineAt doc workingPosition ;;
       Ok (workingPosition, currentLine, 0)
     else
       Ok (newPosition (line this) (character this) (positionOptions this),
           currentLine, character this)) ;;
  let '(workingPosition, currentLine, currentCharacter) := search in
  positions <- scanLoop fuel regex (text currentLine) wordEndOffset 0 [] ;;
  match find (fun position => (Z.of_nat currentCharacter <? position)%Z) positions with
  | Some position =>
      Ok (newPosition (line workingPosition) (Z.to_nat position)
            (positionOptions workingPosition))
  | None => getLineEnd this
  end.

Definition getWordLeft (fuel : nat) (this : Position) : result Position :=
  getWordLeftWithRegex fuel this _nonWordCharRegex.

Definition getBigWordLeft (fuel : nat) (this : Position) : result Position :=
  getWordLeftWithRegex fuel this _nonBigWordCharRegex.

Definition getWordRight (fuel : nat) (this : Position) : result Position :=
  getWordRightWithRegex fuel this _nonWordCharRegex.

Definition getBigWordRight (fuel : nat) (this : Position) : result Position :=
  getWordRightWithRegex fuel this _nonBigWordCharRegex.

Definition getCurrentWordEnd (fuel : nat) (this : Position) : result Position :=
  getCurrentWordEndWithRegex fuel this _nonWordCharRegex.

Definition getCurrentBigWordEnd (fuel : nat) (this : Position) : result Position :=
  getCurrentWordEndWithRegex fuel this _nonBigWordCharRegex.

End Motions.

(** ** Documents of the scenarios *)

Definition scenarioA : Document := ["foo bar"].
Definition scenarioB : Document := ["foo"; EmptyString; "bar"].
Definition scenarioD : Document := ["abc"].
Definition scenarioE : Document := ["abc"; "def"].

(** A document that ends with an empty line. *)
Definition emptyLastLine : Document := ["foo"; EmptyString].

(** A line made of a space and a tab, between two paragraphs. *)
Definition spaceTabLine : string :=
  String " " (String (ascii_of_nat 9) EmptyString).
Definition whitespaceBetween : Document := ["foo"; spaceTabLine; "bar"].

(** ** The static helper [getFirstNonBlankCharAtLine] *)

(** [/^\s*/], without flags. *)
Definition leadingWhitespaceRegex : RegExp := [[Bol; Repeat isWhitespace 0]].

(** [input.match(regex)] for an expression without the [g] flag: the
    first match searched from offset 0, or [None] for [null]. *)
Definition stringMatch (regex : RegExp) (input : string) : option ExecResult :=
  fst (exec regex input 0).

(** [TextEditor.readLineAt(line).match(/^\s*/)[0].length]; the answer
    [None] stands for the TypeError that indexing [null] would raise. *)
Definition getFirstNonBlankCharAtLine (doc : Document) (lineNo : nat) : result (option nat) :=
  t <- TextEditor.readLineAt doc lineNo ;;
  Ok (option_map matchLength (stringMatch leadingWhitespaceRegex t)).

(** [n] applications of [getRight], stopping at the first exception. *)
Definition getRightTimes (doc : Document) (n : nat) (this : Position) : result Position :=
  Nat.iter n (fun r => q <- r ;; getRight doc q) (Ok this).

(** ** Runs of a line, to compare the scan loop with

    A character is part of a punctuation run when it is in the character
    set, of a word run when it is neither whitespace nor in the set, and
    of no run otherwise. *)

Inductive RunKind : Type := WordRun | PunctuationRun.

Definition runKind (characterSet : string) (c : ascii) : option RunKind :=
  if inCharacterSet characterSet c then Some PunctuationRun
  else if isWhitespace c then None
  else Some WordRun.

Definition sameKind (k k' : option RunKind) : bool :=
  match k, k' with
  | Some WordRun, Some WordRun => true
  | Some PunctuationRun, Some PunctuationRun => true
  | None, None => true
  | _, _ => false
  end.

(** The offsets, counted from [offset], at which a run begins: a
    character of some kind whose predecessor, of kind [previous], is not of
    the same kind. *)
Fixpoint runStartsFrom (characterSet : string) (previous : option RunKind)
    (s : list ascii) (offset : nat) : list nat :=
  match s with
  | [] => []
  | c :: s' =>
      let k := runKind characterSet c in
      match k with
      | None => runStartsFrom characterSet k s' (S offset)
      | Some _ =>
          if sameKind k previous then runStartsFrom characterSet k s' (S offset)
          else offset :: runStartsFrom characterSet k s' (S offset)
      end
  end.

(** The run starts of a line; a line of tabs and spaces only is one run. *)
Definition runStarts (characterSet : string) (t : string) : list nat :=
  let s := list_ascii_of_string t in
  if forallb isTabOrSpace s then [0] else runStartsFrom characterSet None s 0.

(** Whether a character is of kind [k]. *)
Definition kindIs (characterSet : string) (k : option RunKind) (c : ascii) : bool :=
  sameKind (runKind characterSet c) k.

(** The first run of [s]: the number of characters before it and its
    length. *)
Fixpoint firstRun (characterSet : string) (s : list ascii) : option (nat * nat) :=
  match s with
  | [] => None
  | c :: s' =>
      match runKind characterSet c with
      | None =>
          match firstRun characterSet s' with
          | Some (n, m) => Some (S n, m)
          | None => None
          end
      | Some k => Some (0, runLength (kindIs characterSet (Some k)) s)
      end
  end.

(** * Properties *)

(** ** The error monad and the loop combinator *)

(** More fuel never changes an answer that was reached. *)
Lemma while_fuel_mono {S : Type} (cond : S -> result bool) (body : S -> result S) :
  forall fuel fuel' s r,
    while fuel cond body s = r -> r <> OutOfFuel -> fuel <= fuel' ->
    while fuel' cond body s = r.
Proof.
  induction fuel as [| fuel IH]; intros fuel' s r Hrun Hr Hle.
  - simpl in Hrun. congruence.
  - destruct fuel' as [| fuel']; [lia |].
    simpl in *. destruct (cond s) as [c | e |]; simpl in *; try exact Hrun.
    destruct c; [| exact Hrun].
    destruct (body s) as [s' | e |]; simpl in *; try exact Hrun.
    apply IH; [exact Hrun | exact Hr | lia].
Qed.

(** The loop rule: an invariant and a measure that the body decreases
    give a final state in which the condition is false. *)
Lemma while_invariant {S : Type} (cond : S -> result bool) (body : S -> result S)
    (Inv : S -> Prop) (measure : S -> nat) :
  (forall s, Inv s ->
     exists c, cond s = Ok c /\
       (c = true -> exists s', body s = Ok s' /\ Inv s' /\ measure s' < measure s)) ->
  forall fuel s, Inv s -> measure s < fuel ->
    exists s', while fuel cond body s = Ok s' /\ Inv s' /\ cond s' = Ok false.
Proof.
  intros Hstep. induction fuel as [| fuel IH]; intros s Hinv Hm; [lia |].
  destruct (Hstep s Hinv) as [c [Hc Hbody]].
  simpl. rewrite Hc. simpl. destruct c.
  - destruct (Hbody eq_refl) as [s' [Hb [Hinv' Hlt]]].
    rewrite Hb. simpl. apply IH; [exact Hinv' | lia].
  - exists s. repeat split; assumption.
Qed.

(** ** Line lengths *)

Lemma readLineAt_Some (doc : Document) (lineNo : nat) (t : string) :
  nth_error doc lineNo = Some t -> TextEditor.readLineAt doc lineNo = Ok t.
Proof. intro H. unfold TextEditor.readLineAt. rewrite H. reflexivity. Qed.

Lemma getLineLength_exclusive (doc : Document) (lineNo : nat) (t : string) :
  nth_error doc lineNo = Some t ->
  getLineLength doc lineNo Exclusive = Ok (String.length t - 1).
Proof.
  intro H. unfold getLineLength, Exclusive. simpl.
  rewrite (readLineAt_Some _ _ _ H). simpl.
  destruct (String.length t) as [| n]; simpl; f_equal; lia.
Qed.

Lemma getLineLength_inclusive (doc : Document) (lineNo : nat) (t : string) :
  nth_error doc lineNo = Some t ->
  getLineLength doc lineNo Inclusive = Ok (String.length t).
Proof.
  intro H. unfold getLineLength, Inclusive. simpl.
  rewrite (readLineAt_Some _ _ _ H). reflexivity.
Qed.

Lemma getLineLength_unhandled (doc : Document) (lineNo : nat) (options : option Z) :
  options <> Exclusive -> options <> Inclusive ->
  getLineLength doc lineNo options = Throw (UnhandledPositionOptions options).
Proof.
  intros HE HI. unfold getLineLength.
  destruct options as [v |]; [| reflexivity].
  destruct (Z.eqb_spec v PositionOptions.CharacterWiseExclusive) as [-> | _];
    [exfalso; apply HE; reflexivity |].
  destruct (Z.eqb_spec v PositionOptions.CharacterWiseInclusive) as [-> | _];
    [exfalso; apply HI; reflexivity | reflexivity].
Qed.

Lemma nth_error_in_range (doc : Document) (lineNo : nat) :
  lineNo < TextEditor.getLineCount doc -> exists t, nth_error doc lineNo = Some t.
Proof.
  unfold TextEditor.getLineCount. intro H.
  destruct (nth_error doc lineNo) as [t |] eqn:E; [eauto |].
  apply nth_error_None in E. lia.
Qed.

Lemma getLineLength_defined (doc : Document) (lineNo : nat) (options : option Z) :
  lineNo < TextEditor.getLineCount doc -> recognised options ->
  exists len, getLineLength doc lineNo options = Ok len.
Proof.
  intros Hl [-> | ->]; destruct (nth_error_in_range _ _ Hl) as [t Ht].
  - eexists. apply getLineLength_exclusive. exact Ht.
  - eexists. apply getLineLength_inclusive. exact Ht.
Qed.

(** C9: with an unset or unrecognised caret mode [getLineLength] throws
    before it looks at the line (so even for a line out of range); on a
    line with text [t] it returns [max(len - 1, 0)] in Exclusive mode and
    [len] in Inclusive mode, [len] being the length of [t]. *)
Theorem getLineLength_by_mode :
  forall (doc : Document) (lineNo : nat),
    (forall options, options <> Exclusive -> options <> Inclusive ->
       getLineLength doc lineNo options = Throw (UnhandledPositionOptions options))
    /\ (forall t, nth_error doc lineNo = Some t ->
          getLineLength doc lineNo Exclusive
            = Ok (Z.to_nat (Z.max (Z.of_nat (String.length t) - 1) 0))
          /\ getLineLength doc lineNo Inclusive = Ok (String.length t)).
Proof.
  intros doc lineNo. split.
  - intros options HE HI. apply getLineLength_unhandled; assumption.
  - intros t Ht. split.
    + rewrite (getLineLength_exclusive _ _ _ Ht). f_equal. lia.
    + apply getLineLength_inclusive. exact Ht.
Qed.

Lemma getLineLength_by_mode_witness :
  getLineLength ["abc"; EmptyString] 7 None = Throw (UnhandledPositionOptions None)
  /\ getLineLength ["abc"; EmptyString] 0 (Some 2%Z) = Throw (UnhandledPositionOptions (Some 2%Z))
  /\ getLineLength ["abc"; EmptyString] 0 Exclusive = Ok 2
  /\ getLineLength ["abc"; EmptyString] 1 Exclusive = Ok 0
  /\ getLineLength ["abc"; EmptyString] 0 Inclusive = Ok 3.
Proof.
  split; [apply (proj1 (getLineLength_by_mode ["abc"; EmptyString] 7)); discriminate |].
  split; [apply (proj1 (getLineLength_by_mode ["abc"; EmptyString] 0)); discriminate |].
  split; [exact (proj1 (proj2 (getLineLength_by_mode ["abc"; EmptyString] 0) "abc" eq_refl)) |].
  split; [exact (proj1 (proj2 (getLineLength_by_mode ["abc"; EmptyString] 1) EmptyString eq_refl)) |].
  exact (proj2 (proj2 (getLineLength_by_mode ["abc"; EmptyString] 0) "abc" eq_refl)).
Defined.

(** ** Validity *)

Lemma isValid_beyond_count (doc : Document) (this : Position) :
  TextEditor.getLineCount doc < line this -> isValid doc this = Ok false.
Proof.
  intro H. unfold isValid. apply Nat.ltb_lt in H. rewrite H. reflexivity.
Qed.

Lemma isValid_on_document (doc : Document) (this : Position) :
  onDocument doc this ->
  exists len, getLineLength doc (line this) (positionOptions this) = Ok len
    /\ isValid doc this = Ok (character this <=? len).
Proof.
  intros [Hl Hr].
  destruct (getLineLength_defined doc _ _ Hl Hr) as [len Hlen].
  exists len. split; [exact Hlen |].
  unfold isValid. rewrite Hlen.
  replace (TextEditor.getLineCount doc <? line this) with false
    by (symmetry; apply Nat.ltb_ge; unfold TextEditor.getLineCount; lia).
  simpl. rewrite Nat.leb_antisym.
  destruct (len <? character this); simpl; [reflexivity |].
  destruct Hr as [-> | ->]; reflexivity.
Qed.

Lemma isValid_unset_mode (doc : Document) (this : Position) :
  line this <= TextEditor.getLineCount doc ->
  positionOptions this = None ->
  isValid doc this = Throw (UnhandledPositionOptions None).
Proof.
  intros Hl Hn. unfold isValid.
  replace (TextEditor.getLineCount doc <? line this) with false
    by (symmetry; apply Nat.ltb_ge; lia).
  rewrite Hn. reflexivity.
Qed.

Lemma isValid_line_equal_count (doc : Document) (this : Position) :
  line this = TextEditor.getLineCount doc ->
  recognised (positionOptions this) ->
  isValid doc this = Throw (IllegalLine (line this)).
Proof.
  intros Hl Hr. unfold isValid.
  replace (TextEditor.getLineCount doc <? line this) with false
    by (symmetry; apply Nat.ltb_ge; lia).
  assert (Hnone : nth_error doc (line this) = None)
    by (apply nth_error_None; unfold TextEditor.getLineCount in Hl; lia).
  unfold getLineLength, TextEditor.readLineAt.
  destruct Hr as [-> | ->]; simpl; rewrite Hnone; reflexivity.
Qed.

(** C8: on the one-line document ["abc"], the position (0, 0) whose caret
    mode is unset does not make [isValid] answer [false]: the line length
    is computed before the mode is tested, and that computation throws. *)
Theorem isValid_unset_mode_throws :
  isValid ["abc"] (newPosition 0 0 None) = Throw (UnhandledPositionOptions None).
Proof. reflexivity. Qed.

(** ** Vertical steps *)

Lemma getDown_on_document (doc : Document) (this : Position) (desiredColumn : nat) :
  onDocument doc this ->
  (S (line this) = TextEditor.getLineCount doc /\ getDown doc this desiredColumn = Ok this)
  \/ (S (line this) < TextEditor.getLineCount doc /\
      exists len, getLineLength doc (line this + 1) (positionOptions this) = Ok len
        /\ getDown doc this desiredColumn
           = Ok (newPosition (line this + 1) (Nat.min len desiredColumn)
                   (positionOptions this))).
Proof.
  intros [Hl Hr]. fold (TextEditor.getLineCount doc) in Hl.
  assert (Hlast : TextEditor.getLineCount doc - 1 < TextEditor.getLineCount doc) by lia.
  destruct (getLineLength_defined doc _ _ Hlast Hr) as [lenEnd HlenEnd].
  unfold getDown, getDocumentEnd.
  replace (0 <? TextEditor.getLineCount doc) with true
    by (symmetry; apply Nat.ltb_lt; lia).
  rewrite HlenEnd. simpl.
  destruct (Nat.eqb_spec (TextEditor.getLineCount doc - 1) (line this)) as [E | N]; simpl.
  - left. split; [lia | reflexivity].
  - right. split; [lia |].
    assert (Hnext : line this + 1 < TextEditor.getLineCount doc) by lia.
    destruct (getLineLength_defined doc _ _ Hnext Hr) as [len Hlen].
    exists len. split; [exact Hlen |]. rewrite Hlen. reflexivity.
Qed.

Lemma getUp_on_document (doc : Document) (this : Position) (desiredColumn : nat) :
  onDocument doc this ->
  (line this = 0 /\ getUp doc this desiredColumn = Ok this)
  \/ (0 < line this /\
      exists len, getLineLength doc (line this - 1) (positionOptions this) = Ok len
        /\ getUp doc this desiredColumn
           = Ok (newPosition (line this - 1) (Nat.min len desiredColumn)
                   (positionOptions this))).
Proof.
  intros [Hl Hr]. fold (TextEditor.getLineCount doc) in Hl.
  unfold getUp, getDocumentBegin. simpl.
  destruct (line this) as [| l] eqn:E; simpl.
  - left. split; reflexivity.
  - right. split; [lia |].
    assert (Hprev : l - 0 < TextEditor.getLineCount doc) by lia.
    destruct (getLineLength_defined doc _ _ Hprev Hr) as [len Hlen].
    exists len. split; [exact Hlen |]. rewrite Hlen. reflexivity.
Qed.

(** C7: on a position of the document, [getDown] returns the position
    itself on the last line and otherwise the position one line below,
    at character [min(lineLength(line + 1), desiredColumn)]; [getUp] does
    the same towards line 0; either result is again on a line of the
    document.  In Inclusive mode on ["abc"; "def"], [getDown 0] at (0, 3)
    is (1, 0). *)
Theorem getDown_getUp_single_step :
  (forall (doc : Document) (this : Position) (desiredColumn : nat),
     onDocument doc this ->
     (exists down, getDown doc this desiredColumn = Ok down
        /\ line down < TextEditor.getLineCount doc
        /\ (S (line this) = TextEditor.getLineCount doc -> down = this)
        /\ (S (line this) <> TextEditor.getLineCount doc ->
            exists len,
              getLineLength doc (line this + 1) (positionOptions this) = Ok len
              /\ down = newPosition (line this + 1) (Nat.min len desiredColumn)
                          (positionOptions this)))
     /\ (exists up, getUp doc this desiredColumn = Ok up
        /\ line up < TextEditor.getLineCount doc
        /\ (line this = 0 -> up = this)
        /\ (line this <> 0 ->
            exists len,
              getLineLength doc (line this - 1) (positionOptions this) = Ok len
              /\ up = newPosition (line this - 1) (Nat.min len desiredColumn)
                        (positionOptions this))))
  /\ getDown scenarioE (newPosition 0 3 Inclusive) 0 = Ok (newPosition 1 0 Inclusive).
Proof.
  split; [| reflexivity].
  intros doc this desiredColumn Hon. pose proof Hon as [Hl Hr].
  fold (TextEditor.getLineCount doc) in Hl. split.
  - destruct (getDown_on_document doc this desiredColumn Hon)
      as [[Hlast Hd] | [Hin [len [Hlen Hd]]]].
    + exists this. repeat split; try assumption; try reflexivity. intro; lia.
    + eexists. split; [exact Hd |]. simpl. split; [lia |]. split; [intro; lia |].
      intros _. exists len. split; [exact Hlen | reflexivity].
  - destruct (getUp_on_document doc this desiredColumn Hon)
      as [[Hfirst Hu] | [Hin [len [Hlen Hu]]]].
    + exists this. repeat split; try assumption; try reflexivity. intro; lia.
    + eexists. split; [exact Hu |]. simpl. split; [lia |]. split; [intro; lia |].
      intros _. exists len. split; [exact Hlen | reflexivity].
Qed.

Lemma getDown_getUp_single_step_witness :
  onDocument ["abc"; "de"] (newPosition 0 3 Exclusive)
  /\ (exists down, getDown ["abc"; "de"] (newPosition 0 3 Exclusive) 5 = Ok down
        /\ line down < 2).
Proof.
  assert (Hon : onDocument ["abc"; "de"] (newPosition 0 3 Exclusive))
    by (split; [simpl; lia | left; reflexivity]).
  split; [exact Hon |].
  destruct (proj1 (proj1 getDown_getUp_single_step _ _ 5 Hon)) as [down [Hd [Hl _]]].
  exists down. split; [exact Hd | exact Hl].
Defined.

(** ** Horizontal steps *)

Lemma Position_eta (p : Position) :
  newPosition (line p) (character p) (positionOptions p) = p.
Proof. destruct p; reflexivity. Qed.

(** C5, as stated, fails: in Exclusive mode on ["abc"], the position
    (0, 2) is not at the line beginning, yet right-then-left gives (0, 1);
    the position (0, 0) is not at the line end, yet left-then-right
    gives (0, 1).  Nor is "not at the line beginning" enough for
    left-then-right: from (0, 3), past the line end, it gives (0, 2). *)
Lemma right_left_stated_conditions_fail :
  (isLineBeginning (newPosition 0 2 Exclusive) = false
   /\ (q <- getRight ["abc"] (newPosition 0 2 Exclusive) ;; Ok (getLeft q))
        = Ok (newPosition 0 1 Exclusive)
   /\ newPosition 0 1 Exclusive <> newPosition 0 2 Exclusive)
  /\ (isLineEnd ["abc"] (newPosition 0 0 Exclusive) = Ok false
   /\ getRight ["abc"] (getLeft (newPosition 0 0 Exclusive))
        = Ok (newPosition 0 1 Exclusive)
   /\ newPosition 0 1 Exclusive <> newPosition 0 0 Exclusive)
  /\ (isLineBeginning (newPosition 0 3 Exclusive) = false
   /\ getRight ["abc"] (getLeft (newPosition 0 3 Exclusive))
        = Ok (newPosition 0 2 Exclusive)
   /\ newPosition 0 2 Exclusive <> newPosition 0 3 Exclusive).
Proof.
  repeat split; try reflexivity; discriminate.
Qed.

(** C5, amended: right-then-left returns [p] whenever [p] is not at its
    line end; left-then-right returns [p] whenever [p] is not at the line
    beginning and its character does not exceed the line length. *)
Theorem right_left_inverse :
  forall (doc : Document) (p : Position),
    (isLineEnd doc p = Ok false ->
       (q <- getRight doc p ;; Ok (getLeft q)) = Ok p)
    /\ (forall len,
          getLineLength doc (line p) (positionOptions p) = Ok len ->
          isLineBeginning p = false -> character p <= len ->
          getRight doc (getLeft p) = Ok p).
Proof.
  intros doc p. split.
  - intro Hend. unfold getRight. rewrite Hend. simpl.
    unfold getLeft, isLineBeginning. simpl.
    replace (character p + 1 =? 0) with false by (symmetry; apply Nat.eqb_neq; lia).
    simpl. replace (character p + 1 - 1) with (character p) by lia.
    rewrite Position_eta. reflexivity.
  - intros len Hlen Hbeg Hle. unfold getLeft. rewrite Hbeg. simpl.
    unfold isLineBeginning in Hbeg. apply Nat.eqb_neq in Hbeg.
    unfold getRight, isLineEnd. simpl. rewrite Hlen. simpl.
    replace (character p - 1 =? len) with false by (symmetry; apply Nat.eqb_neq; lia).
    simpl. replace (character p - 1 + 1) with (character p) by lia.
    rewrite Position_eta. reflexivity.
Qed.

Lemma right_left_inverse_witness :
  isLineEnd ["abc"] (newPosition 0 1 Exclusive) = Ok false
  /\ (q <- getRight ["abc"] (newPosition 0 1 Exclusive) ;; Ok (getLeft q))
       = Ok (newPosition 0 1 Exclusive)
  /\ getLineLength ["abc"] 0 Exclusive = Ok 2
  /\ isLineBeginning (newPosition 0 2 Exclusive) = false
  /\ 2 <= 2
  /\ getRight ["abc"] (getLeft (newPosition 0 2 Exclusive))
       = Ok (newPosition 0 2 Exclusive).
Proof.
  split; [reflexivity |].
  split; [apply (proj1 (right_left_inverse ["abc"] (newPosition 0 1 Exclusive))); reflexivity |].
  split; [reflexivity |]. split; [reflexivity |]. split; [lia |].
  apply (proj2 (right_left_inverse ["abc"] (newPosition 0 2 Exclusive)) 2);
    [reflexivity | reflexivity | simpl; lia].
Defined.

(** ** Paragraph motions *)

(** C1, as stated, fails: on ["foo"; EmptyString; "bar"] in Exclusive mode,
    [getCurrentParagraphEnd] from (0, 0) never answers (0, 3). *)
Lemma paragraphEnd_scenarioB_not_0_3 :
  ~ (exists fuel,
       getCurrentParagraphEnd scenarioB fuel (newPosition 0 0 Exclusive)
         = Ok (newPosition 0 3 Exclusive)).
Proof.
  intros [fuel H].
  destruct fuel as [| [| fuel]]; simpl in H; discriminate.
Qed.

(** C1, amended: on ["foo"; EmptyString; "bar"] in Exclusive mode,
    [getCurrentParagraphEnd] from (0, 0) returns (1, 0): the descent
    stops on the empty line 1 and the result is the line end of that line,
    whose exclusive length is 0. *)
Theorem paragraphEnd_scenarioB :
  forall fuel,
    getCurrentParagraphEnd scenarioB (2 + fuel) (newPosition 0 0 Exclusive)
      = Ok (newPosition 1 0 Exclusive).
Proof. intros fuel. reflexivity. Qed.

Lemma getDown_zero_step (doc : Document) (s : Position) :
  onDocument doc s -> S (line s) < TextEditor.getLineCount doc ->
  getDown doc s 0 = Ok (newPosition (S (line s)) 0 (positionOptions s)).
Proof.
  intros Hon Hlt.
  destruct (getDown_on_document doc s 0 Hon) as [[Hlast _] | [_ [len [_ Hd]]]]; [lia |].
  rewrite Hd. rewrite Nat.min_0_r. rewrite Nat.add_1_r. reflexivity.
Qed.

Lemma getUp_zero_step (doc : Document) (s : Position) :
  onDocument doc s -> 0 < line s ->
  getUp doc s 0 = Ok (newPosition (line s - 1) 0 (positionOptions s)).
Proof.
  intros Hon Hlt.
  destruct (getUp_on_document doc s 0 Hon) as [[Hfirst _] | [_ [len [_ Hu]]]]; [lia |].
  rewrite Hu. rewrite Nat.min_0_r. reflexivity.
Qed.

(** A descending loop of [getCurrentParagraphEnd]: any condition that is
    defined on the document and only continues above the last line. *)
Lemma descend_loop (doc : Document) (cond : Position -> result bool) (start : Position) :
  (forall s, onDocument doc s ->
     exists c, cond s = Ok c /\ (c = true -> S (line s) < TextEditor.getLineCount doc)) ->
  forall fuel, onDocument doc start -> TextEditor.getLineCount doc - line start < fuel ->
  exists s',
    while fuel cond (fun pos => getDown doc pos 0) start = Ok s'
    /\ onDocument doc s'
    /\ positionOptions s' = positionOptions start
    /\ line start <= line s'
    /\ cond s' = Ok false.
Proof.
  intros Hcond fuel Hon Hfuel.
  destruct (while_invariant cond (fun pos => getDown doc pos 0)
              (fun s => onDocument doc s
                        /\ positionOptions s = positionOptions start
                        /\ line start <= line s)
              (fun s => TextEditor.getLineCount doc - line s))
    with (fuel := fuel) (s := start) as [s' [Hrun [[Hon' [Ho Hl]] Hc]]].
  - intros s [Hs [Ho Hl]]. destruct (Hcond s Hs) as [c [Hc Hlt]].
    exists c. split; [exact Hc |]. intro Htrue. specialize (Hlt Htrue).
    eexists. split; [apply getDown_zero_step; assumption |].
    destruct Hs as [Hsl Hsr]. simpl. repeat split; try assumption; try lia.
  - split; [exact Hon | split; [reflexivity | lia]].
  - exact Hfuel.
  - exists s'. split; [exact Hrun |]. split; [exact Hon' |].
    split; [exact Ho |]. split; [exact Hl | exact Hc].
Qed.

(** An ascending loop of [getCurrentParagraphBeginning]. *)
Lemma ascend_loop (doc : Document) (cond : Position -> result bool) (start : Position) :
  (forall s, onDocument doc s ->
     exists c, cond s = Ok c /\ (c = true -> 0 < line s)) ->
  forall fuel, onDocument doc start -> line start < fuel ->
  exists s',
    while fuel cond (fun pos => getUp doc pos 0) start = Ok s'
    /\ onDocument doc s'
    /\ positionOptions s' = positionOptions start
    /\ line s' <= line start
    /\ cond s' = Ok false.
Proof.
  intros Hcond fuel Hon Hfuel.
  destruct (while_invariant cond (fun pos => getUp doc pos 0)
              (fun s => onDocument doc s
                        /\ positionOptions s = positionOptions start
                        /\ line s <= line start)
              (fun s => line s))
    with (fuel := fuel) (s := start) as [s' [Hrun [[Hon' [Ho Hl]] Hc]]].
  - intros s [Hs [Ho Hl]]. destruct (Hcond s Hs) as [c [Hc Hlt]].
    exists c. split; [exact Hc |]. intro Htrue. specialize (Hlt Htrue).
    eexists. split; [apply getUp_zero_step; assumption |].
    destruct Hs as [Hsl Hsr]. simpl.
    repeat split; simpl; try assumption; try lia.
  - split; [exact Hon | split; [reflexivity | lia]].
  - exact Hfuel.
  - exists s'. split; [exact Hrun |]. split; [exact Hon' |].
    split; [exact Ho |]. split; [exact Hl | exact Hc].
Qed.

(** The paragraph motions do not depend on the fuel once they answer. *)
Lemma two_loops_fuel_mono {S B : Type} (c1 c2 : S -> result bool) (body : S -> result S)
    (finish : S -> result B) (fuel fuel' : nat) (s : S) (r : result B) :
  (s1 <- while fuel c1 body s ;; s2 <- while fuel c2 body s1 ;; finish s2) = r ->
  r <> OutOfFuel -> fuel <= fuel' ->
  (s1 <- while fuel' c1 body s ;; s2 <- while fuel' c2 body s1 ;; finish s2) = r.
Proof.
  intros Hrun Hr Hle.
  destruct (while fuel c1 body s) as [s1 | e |] eqn:E1; simpl in Hrun;
    [| | congruence].
  - rewrite (while_fuel_mono c1 body fuel fuel' s _ E1 ltac:(discriminate) Hle). simpl.
    destruct (while fuel c2 body s1) as [s2 | e |] eqn:E2; simpl in Hrun;
      [| | congruence].
    + rewrite (while_fuel_mono c2 body fuel fuel' s1 _ E2 ltac:(discriminate) Hle).
      exact Hrun.
    + rewrite (while_fuel_mono c2 body fuel fuel' s1 _ E2 ltac:(discriminate) Hle).
      exact Hrun.
  - rewrite (while_fuel_mono c1 body fuel fuel' s _ E1 ltac:(discriminate) Hle).
    exact Hrun.
Qed.

Lemma getCurrentParagraphEnd_fuel_mono (doc : Document) (fuel fuel' : nat)
    (p : Position) (r : result Position) :
  getCurrentParagraphEnd doc fuel p = r -> r <> OutOfFuel -> fuel <= fuel' ->
  getCurrentParagraphEnd doc fuel' p = r.
Proof. unfold getCurrentParagraphEnd. apply two_loops_fuel_mono. Qed.

Lemma getCurrentParagraphBeginning_fuel_mono (doc : Document) (fuel fuel' : nat)
    (p : Position) (r : result Position) :
  getCurrentParagraphBeginning doc fuel p = r -> r <> OutOfFuel -> fuel <= fuel' ->
  getCurrentParagraphBeginning doc fuel' p = r.
Proof. unfold getCurrentParagraphBeginning. apply two_loops_fuel_mono. Qed.

(** The values of the four loop conditions on a line with text [t]. *)
Lemma paragraphEndSkipBlank_value (doc : Document) (s : Position) (t : string) :
  nth_error doc (line s) = Some t ->
  paragraphEndSkipBlank doc s
    = Ok (String.eqb t EmptyString && negb (S (line s) =? TextEditor.getLineCount doc)).
Proof.
  intro H. unfold paragraphEndSkipBlank, TextEditor.getLineAt, TextEditor.isLastLine.
  rewrite H. reflexivity.
Qed.

Lemma paragraphEndInside_value (doc : Document) (s : Position) (t : string) :
  nth_error doc (line s) = Some t ->
  paragraphEndInside doc s
    = Ok (negb (String.eqb t EmptyString) && (S (line s) <? TextEditor.getLineCount doc)).
Proof.
  intro H. unfold paragraphEndInside, TextEditor.getLineAt. rewrite H. reflexivity.
Qed.

Lemma paragraphBeginSkipBlank_value (doc : Document) (s : Position) (t : string) :
  nth_error doc (line s) = Some t ->
  paragraphBeginSkipBlank doc s
    = Ok (String.eqb t EmptyString && negb (line s =? 0)).
Proof.
  intro H. unfold paragraphBeginSkipBlank, TextEditor.getLineAt, TextEditor.isFirstLine.
  rewrite H. reflexivity.
Qed.

Lemma paragraphBeginInside_value (doc : Document) (s : Position) (t : string) :
  nth_error doc (line s) = Some t ->
  paragraphBeginInside doc s
    = Ok ((0 <? line s) && negb (String.eqb t EmptyString)).
Proof.
  intro H. unfold paragraphBeginInside, TextEditor.getLineAt. rewrite H.
  destruct (0 <? line s); reflexivity.
Qed.

Lemma paragraphEndSkipBlank_guard (doc : Document) (s : Position) :
  onDocument doc s ->
  exists c, paragraphEndSkipBlank doc s = Ok c
    /\ (c = true -> S (line s) < TextEditor.getLineCount doc).
Proof.
  intros [Hl _]. destruct (nth_error_in_range doc _ Hl) as [t Ht].
  rewrite (paragraphEndSkipBlank_value _ _ _ Ht). eexists. split; [reflexivity |].
  intro H. apply andb_prop in H. destruct H as [_ H].
  apply negb_true_iff, Nat.eqb_neq in H. unfold TextEditor.getLineCount in *. lia.
Qed.

Lemma paragraphEndInside_guard (doc : Document) (s : Position) :
  onDocument doc s ->
  exists c, paragraphEndInside doc s = Ok c
    /\ (c = true -> S (line s) < TextEditor.getLineCount doc).
Proof.
  intros [Hl _]. destruct (nth_error_in_range doc _ Hl) as [t Ht].
  rewrite (paragraphEndInside_value _ _ _ Ht). eexists. split; [reflexivity |].
  intro H. apply andb_prop in H. destruct H as [_ H]. apply Nat.ltb_lt in H. exact H.
Qed.

Lemma paragraphBeginSkipBlank_guard (doc : Document) (s : Position) :
  onDocument doc s ->
  exists c, paragraphBeginSkipBlank doc s = Ok c /\ (c = true -> 0 < line s).
Proof.
  intros [Hl _]. destruct (nth_error_in_range doc _ Hl) as [t Ht].
  rewrite (paragraphBeginSkipBlank_value _ _ _ Ht). eexists. split; [reflexivity |].
  intro H. apply andb_prop in H. destruct H as [_ H].
  apply negb_true_iff, Nat.eqb_neq in H. lia.
Qed.

Lemma paragraphBeginInside_guard (doc : Document) (s : Position) :
  onDocument doc s ->
  exists c, paragraphBeginInside doc s = Ok c /\ (c = true -> 0 < line s).
Proof.
  intros [Hl _]. destruct (nth_error_in_range doc _ Hl) as [t Ht].
  rewrite (paragraphBeginInside_value _ _ _ Ht). eexists. split; [reflexivity |].
  intro H. apply andb_prop in H. destruct H as [H _]. apply Nat.ltb_lt in H. exact H.
Qed.

(** [getCurrentParagraphEnd] on a position of the document, with enough
    fuel: where its two loops stop and what it returns. *)
Lemma paragraphEnd_run (doc : Document) (fuel : nat) (p : Position) :
  onDocument doc p -> TextEditor.getLineCount doc - line p < fuel ->
  exists s1 s2 t2 len,
    while fuel (paragraphEndSkipBlank doc) (fun pos => getDown doc pos 0) p = Ok s1
    /\ line p <= line s1 /\ line s1 <= line s2
    /\ line s2 < TextEditor.getLineCount doc
    /\ nth_error doc (line s2) = Some t2
    /\ (t2 = EmptyString \/ S (line s2) = TextEditor.getLineCount doc)
    /\ getLineLength doc (line s2) (positionOptions p) = Ok len
    /\ getCurrentParagraphEnd doc fuel p
       = Ok (newPosition (line s2) len (positionOptions p)).
Proof.
  intros Hon Hfuel.
  destruct (descend_loop doc (paragraphEndSkipBlank doc) p
              (paragraphEndSkipBlank_guard doc) fuel Hon Hfuel)
    as [s1 [Hrun1 [Hon1 [Ho1 [Hl1 _]]]]].
  destruct (descend_loop doc (paragraphEndInside doc) s1
              (paragraphEndInside_guard doc) fuel Hon1 ltac:(lia))
    as [s2 [Hrun2 [Hon2 [Ho2 [Hl2 Hc2]]]]].
  pose proof Hon2 as [Hlt2 Hr2]. fold (TextEditor.getLineCount doc) in Hlt2.
  destruct (nth_error_in_range doc _ Hlt2) as [t2 Ht2].
  destruct (getLineLength_defined doc _ _ Hlt2 Hr2) as [len Hlen].
  exists s1, s2, t2, len.
  rewrite Ho2, Ho1 in Hlen.
  repeat split; try assumption.
  - rewrite (paragraphEndInside_value _ _ _ Ht2) in Hc2.
    injection Hc2 as Hc2. apply andb_false_iff in Hc2.
    destruct Hc2 as [Hc2 | Hc2].
    + left. apply negb_false_iff in Hc2. apply String.eqb_eq in Hc2. exact Hc2.
    + right. apply Nat.ltb_ge in Hc2. lia.
  - unfold getCurrentParagraphEnd. rewrite Hrun1. simpl. rewrite Hrun2. simpl.
    unfold getLineEnd. rewrite Ho2, Ho1, Hlen. reflexivity.
Qed.

(** On an empty line that is not the last one the first loop steps down. *)
Lemma paragraphEnd_leaves_empty_line (doc : Document) (fuel : nat) (p s1 : Position) :
  onDocument doc p -> TextEditor.getLineCount doc - line p < fuel ->
  nth_error doc (line p) = Some EmptyString ->
  S (line p) < TextEditor.getLineCount doc ->
  while fuel (paragraphEndSkipBlank doc) (fun pos => getDown doc pos 0) p = Ok s1 ->
  line p < line s1.
Proof.
  intros Hon Hfuel Ht Hlt Hrun.
  destruct fuel as [| fuel]; [discriminate |].
  simpl in Hrun. rewrite (paragraphEndSkipBlank_value _ _ _ Ht) in Hrun.
  replace (S (line p) =? TextEditor.getLineCount doc) with false in Hrun
    by (symmetry; apply Nat.eqb_neq; lia).
  simpl in Hrun. rewrite (getDown_zero_step doc p Hon Hlt) in Hrun. simpl in Hrun.
  destruct (descend_loop doc (paragraphEndSkipBlank doc)
              (newPosition (S (line p)) 0 (positionOptions p))
              (paragraphEndSkipBlank_guard doc) fuel)
    as [s' [Hrun' [_ [_ [Hl' _]]]]].
  - destruct Hon as [_ Hr]. split; [exact Hlt | exact Hr].
  - simpl. lia.
  - rewrite Hrun' in Hrun. injection Hrun as <-. simpl in Hl'. lia.
Qed.

(** [getCurrentParagraphBeginning] on a position of the document. *)
Lemma paragraphBegin_run (doc : Document) (fuel : nat) (p : Position) :
  onDocument doc p -> line p < fuel ->
  exists s1 s2 t2,
    while fuel (paragraphBeginSkipBlank doc) (fun pos => getUp doc pos 0) p = Ok s1
    /\ line s1 <= line p /\ line s2 <= line s1
    /\ nth_error doc (line s2) = Some t2
    /\ (t2 = EmptyString \/ line s2 = 0)
    /\ getCurrentParagraphBeginning doc fuel p
       = Ok (newPosition (line s2) 0 (positionOptions p)).
Proof.
  intros Hon Hfuel.
  destruct (ascend_loop doc (paragraphBeginSkipBlank doc) p
              (paragraphBeginSkipBlank_guard doc) fuel Hon Hfuel)
    as [s1 [Hrun1 [Hon1 [Ho1 [Hl1 _]]]]].
  destruct (ascend_loop doc (paragraphBeginInside doc) s1
              (paragraphBeginInside_guard doc) fuel Hon1 ltac:(lia))
    as [s2 [Hrun2 [Hon2 [Ho2 [Hl2 Hc2]]]]].
  pose proof Hon2 as [Hlt2 Hr2]. fold (TextEditor.getLineCount doc) in Hlt2.
  destruct (nth_error_in_range doc _ Hlt2) as [t2 Ht2].
  exists s1, s2, t2.
  repeat split; try assumption.
  - rewrite (paragraphBeginInside_value _ _ _ Ht2) in Hc2.
    injection Hc2 as Hc2. apply andb_false_iff in Hc2.
    destruct Hc2 as [Hc2 | Hc2].
    + right. apply Nat.ltb_ge in Hc2. lia.
    + left. apply negb_false_iff in Hc2. apply String.eqb_eq in Hc2. exact Hc2.
  - unfold getCurrentParagraphBeginning. rewrite Hrun1. simpl. rewrite Hrun2. simpl.
    unfold getLineBegin. rewrite Ho2, Ho1. reflexivity.
Qed.

(** On an empty line that is not the first one the first loop steps up. *)
Lemma paragraphBegin_leaves_empty_line (doc : Document) (fuel : nat) (p s1 : Position) :
  onDocument doc p -> line p < fuel ->
  nth_error doc (line p) = Some EmptyString ->
  0 < line p ->
  while fuel (paragraphBeginSkipBlank doc) (fun pos => getUp doc pos 0) p = Ok s1 ->
  line s1 < line p.
Proof.
  intros Hon Hfuel Ht Hlt Hrun.
  destruct fuel as [| fuel]; [discriminate |].
  simpl in Hrun. rewrite (paragraphBeginSkipBlank_value _ _ _ Ht) in Hrun.
  replace (line p =? 0) with false in Hrun by (symmetry; apply Nat.eqb_neq; lia).
  simpl in Hrun. rewrite (getUp_zero_step doc p Hon Hlt) in Hrun. simpl in Hrun.
  destruct (ascend_loop doc (paragraphBeginSkipBlank doc)
              (newPosition (line p - 1) 0 (positionOptions p))
              (paragraphBeginSkipBlank_guard doc) fuel)
    as [s' [Hrun' [_ [_ [Hl' _]]]]].
  - destruct Hon as [Hl Hr]. split; [simpl; lia | exact Hr].
  - simpl. lia.
  - rewrite Hrun' in Hrun. injection Hrun as <-. simpl in Hl'. lia.
Qed.

(** The two halves of the amended idempotence property. *)
Lemma paragraphEnd_twice (doc : Document) (fuel : nat) (p : Position) :
  onDocument doc p -> TextEditor.getLineCount doc < fuel ->
  exists once,
    getCurrentParagraphEnd doc fuel p = Ok once
    /\ (getCurrentParagraphEnd doc fuel once = Ok once
        <-> S (line once) = TextEditor.getLineCount doc).
Proof.
  intros Hon Hfuel. pose proof Hon as [_ Hr].
  destruct (paragraphEnd_run doc fuel p Hon ltac:(lia))
    as [s1 [s2 [t2 [len [_ [_ [_ [Hlt2 [Ht2 [Hstop [Hlen Hres]]]]]]]]]]].
  set (once := newPosition (line s2) len (positionOptions p)) in *.
  assert (HonOnce : onDocument doc once) by (split; [exact Hlt2 | exact Hr]).
  exists once. split; [exact Hres |]. split.
  - intro Hagain.
    destruct (Nat.eq_dec (S (line once)) (TextEditor.getLineCount doc)) as [E | N];
      [exact E | exfalso].
    destruct Hstop as [-> | Hlast]; [| simpl in N; lia].
    destruct (paragraphEnd_run doc fuel once HonOnce ltac:(lia))
      as [r1 [r2 [u2 [len' [Hrun1 [_ [Hl12 [_ [_ [_ [_ Hres']]]]]]]]]]].
    assert (Hmove : line once < line r1).
    { apply (paragraphEnd_leaves_empty_line doc fuel once r1); try assumption.
      - lia.
      - simpl in *. lia. }
    rewrite Hres' in Hagain. injection Hagain as Hline _.
    simpl in Hmove. lia.
  - intro Hlast. simpl in Hlast.
    destruct fuel as [| fuel]; [lia |].
    unfold getCurrentParagraphEnd. simpl.
    rewrite (paragraphEndSkipBlank_value doc once t2 Ht2).
    simpl line. rewrite Hlast, Nat.eqb_refl, andb_false_r. simpl.
    rewrite (paragraphEndInside_value doc once t2 Ht2).
    simpl line. rewrite Hlast, Nat.ltb_irrefl, andb_false_r. simpl.
    unfold getLineEnd. simpl. rewrite Hlen. reflexivity.
Qed.

Lemma paragraphBegin_twice (doc : Document) (fuel : nat) (p : Position) :
  onDocument doc p -> TextEditor.getLineCount doc < fuel ->
  exists once,
    getCurrentParagraphBeginning doc fuel p = Ok once
    /\ (getCurrentParagraphBeginning doc fuel once = Ok once <-> line once = 0).
Proof.
  intros Hon Hfuel. pose proof Hon as [Hlp Hr].
  fold (TextEditor.getLineCount doc) in Hlp.
  destruct (paragraphBegin_run doc fuel p Hon ltac:(lia))
    as [s1 [s2 [t2 [_ [Hl1 [Hl2 [Ht2 [Hstop Hres]]]]]]]].
  set (once := newPosition (line s2) 0 (positionOptions p)) in *.
  assert (HonOnce : onDocument doc once).
  { split; [| exact Hr]. simpl. fold (TextEditor.getLineCount doc). lia. }
  exists once. split; [exact Hres |]. split.
  - intro Hagain.
    destruct (Nat.eq_dec (line once) 0) as [E | N]; [exact E | exfalso].
    destruct Hstop as [-> | Hfirst]; [| simpl in N; lia].
    destruct (paragraphBegin_run doc fuel once HonOnce ltac:(simpl; lia))
      as [r1 [r2 [u2 [Hrun1 [_ [Hl12 [_ [_ Hres']]]]]]]].
    assert (Hmove : line r1 < line once).
    { apply (paragraphBegin_leaves_empty_line doc fuel once r1); try assumption.
      - simpl. lia.
      - lia. }
    rewrite Hres' in Hagain. injection Hagain as Hline.
    simpl in Hmove. lia.
  - intro Hfirst. simpl in Hfirst.
    destruct fuel as [| fuel]; [lia |].
    unfold getCurrentParagraphBeginning. simpl.
    rewrite (paragraphBeginSkipBlank_value doc once t2 Ht2).
    simpl line. rewrite Hfirst. simpl. rewrite andb_false_r. simpl.
    rewrite (paragraphBeginInside_value doc once t2 Ht2).
    simpl line. rewrite Hfirst. simpl.
    unfold getLineBegin, once. simpl. rewrite Hfirst. reflexivity.
Qed.

(** C6, as stated, fails: on ["foo"; EmptyString; "bar"] in Exclusive mode,
    [getCurrentParagraphEnd] takes (0, 0) to (1, 0) and (1, 0) to (2, 2);
    [getCurrentParagraphBeginning] takes (2, 0) to (1, 0) and (1, 0) to
    (0, 0). *)
Lemma paragraph_motions_not_idempotent :
  (forall fuel,
     getCurrentParagraphEnd scenarioB (2 + fuel) (newPosition 0 0 Exclusive)
       = Ok (newPosition 1 0 Exclusive)
     /\ getCurrentParagraphEnd scenarioB (2 + fuel) (newPosition 1 0 Exclusive)
       = Ok (newPosition 2 2 Exclusive))
  /\ (forall fuel,
     getCurrentParagraphBeginning scenarioB (2 + fuel) (newPosition 2 0 Exclusive)
       = Ok (newPosition 1 0 Exclusive)
     /\ getCurrentParagraphBeginning scenarioB (2 + fuel) (newPosition 1 0 Exclusive)
       = Ok (newPosition 0 0 Exclusive))
  /\ newPosition 2 2 Exclusive <> newPosition 1 0 Exclusive
  /\ newPosition 0 0 Exclusive <> newPosition 1 0 Exclusive.
Proof.
  split; [intro fuel; split; reflexivity |].
  split; [intro fuel; split; reflexivity |].
  split; discriminate.
Qed.

(** C6, amended: for a position of the document, [getCurrentParagraphEnd]
    applied twice gives what it gives once exactly when the first result
    is on the last line, and [getCurrentParagraphBeginning] exactly when
    the first result is on line 0. *)
Theorem paragraph_motions_twice :
  forall (doc : Document) (fuel : nat) (p : Position),
    onDocument doc p -> TextEditor.getLineCount doc < fuel ->
    (exists once,
       getCurrentParagraphEnd doc fuel p = Ok once
       /\ (getCurrentParagraphEnd doc fuel once = Ok once
           <-> S (line once) = TextEditor.getLineCount doc))
    /\ (exists once,
       getCurrentParagraphBeginning doc fuel p = Ok once
       /\ (getCurrentParagraphBeginning doc fuel once = Ok once
           <-> line once = 0)).
Proof.
  intros doc fuel p Hon Hfuel. split.
  - apply paragraphEnd_twice; assumption.
  - apply paragraphBegin_twice; assumption.
Qed.

Lemma paragraph_motions_twice_witness :
  onDocument scenarioB (newPosition 2 1 Exclusive)
  /\ TextEditor.getLineCount scenarioB < 4
  /\ (exists once,
       getCurrentParagraphEnd scenarioB 4 (newPosition 2 1 Exclusive) = Ok once
       /\ (getCurrentParagraphEnd scenarioB 4 once = Ok once
           <-> S (line once) = TextEditor.getLineCount scenarioB))
  /\ (exists once,
       getCurrentParagraphBeginning scenarioB 4 (newPosition 2 1 Exclusive) = Ok once
       /\ (getCurrentParagraphBeginning scenarioB 4 once = Ok once
           <-> line once = 0)).
Proof.
  assert (Hon : onDocument scenarioB (newPosition 2 1 Exclusive))
    by (split; [simpl; lia | left; reflexivity]).
  assert (Hfuel : TextEditor.getLineCount scenarioB < 4) by (simpl; lia).
  split; [exact Hon |]. split; [exact Hfuel |].
  exact (paragraph_motions_twice scenarioB 4 (newPosition 2 1 Exclusive) Hon Hfuel).
Defined.

(** On a line whose text is not empty, the first loop of either paragraph
    motion does not move, and the second loop steps over the line to the
    next line (towards the end) or the previous line (towards the
    beginning) whenever there is one. *)
Lemma nonempty_line_loop_conditions :
  forall (doc : Document) (pos : Position) (t : string),
    onDocument doc pos ->
    nth_error doc (line pos) = Some t ->
    t <> EmptyString ->
    (paragraphEndSkipBlank doc pos = Ok false
     /\ paragraphBeginSkipBlank doc pos = Ok false
     /\ paragraphEndInside doc pos = Ok (S (line pos) <? TextEditor.getLineCount doc)
     /\ paragraphBeginInside doc pos = Ok (0 <? line pos))
    /\ (forall fuel,
          while (S fuel) (paragraphEndSkipBlank doc) (fun q => getDown doc q 0) pos = Ok pos
          /\ while (S fuel) (paragraphBeginSkipBlank doc) (fun q => getUp doc q 0) pos = Ok pos)
    /\ (forall fuel,
          S (line pos) < TextEditor.getLineCount doc ->
          while (S fuel) (paragraphEndInside doc) (fun q => getDown doc q 0) pos
            = while fuel (paragraphEndInside doc) (fun q => getDown doc q 0)
                (newPosition (S (line pos)) 0 (positionOptions pos)))
    /\ (forall fuel,
          0 < line pos ->
          while (S fuel) (paragraphBeginInside doc) (fun q => getUp doc q 0) pos
            = while fuel (paragraphBeginInside doc) (fun q => getUp doc q 0)
                (newPosition (line pos - 1) 0 (positionOptions pos))).
Proof.
  intros doc pos t Hon Ht Hne.
  apply String.eqb_neq in Hne.
  assert (HES : paragraphEndSkipBlank doc pos = Ok false)
    by (rewrite (paragraphEndSkipBlank_value _ _ _ Ht), Hne; reflexivity).
  assert (HBS : paragraphBeginSkipBlank doc pos = Ok false)
    by (rewrite (paragraphBeginSkipBlank_value _ _ _ Ht), Hne; reflexivity).
  assert (HEI : paragraphEndInside doc pos
                = Ok (S (line pos) <? TextEditor.getLineCount doc))
    by (rewrite (paragraphEndInside_value _ _ _ Ht), Hne; reflexivity).
  assert (HBI : paragraphBeginInside doc pos = Ok (0 <? line pos))
    by (rewrite (paragraphBeginInside_value _ _ _ Ht), Hne; simpl;
        rewrite andb_true_r; reflexivity).
  split; [repeat split; assumption |].
  split; [intro fuel; simpl; rewrite HES, HBS; split; reflexivity |].
  split.
  - intros fuel Hlt. simpl. rewrite HEI.
    replace (S (line pos) <? TextEditor.getLineCount doc) with true
      by (symmetry; apply Nat.ltb_lt; exact Hlt).
    simpl. rewrite (getDown_zero_step doc pos Hon Hlt). reflexivity.
  - intros fuel Hlt. simpl. rewrite HBI.
    replace (0 <? line pos) with true by (symmetry; apply Nat.ltb_lt; exact Hlt).
    simpl. rewrite (getUp_zero_step doc pos Hon Hlt). reflexivity.
Qed.

(** The whitespace-only line does not end the paragraph that starts at
    line 0, nor begin the one that ends at line 2. *)
Example paragraph_motions_cross_whitespace_line :
  forall fuel,
    getCurrentParagraphEnd whitespaceBetween (3 + fuel) (newPosition 0 0 Exclusive)
      = Ok (newPosition 2 2 Exclusive)
    /\ getCurrentParagraphBeginning whitespaceBetween (3 + fuel) (newPosition 2 0 Exclusive)
      = Ok (newPosition 0 0 Exclusive).
Proof. intro fuel. split; reflexivity. Qed.

(** ** The scan loop of the word motions *)

(** On the empty text the first branch matches the empty string at offset
    0 and [lastIndex] stays 0. *)
Lemma exec_empty_text (characterSet : string) :
  exec (makeWordRegex characterSet) EmptyString 0 = (Some (mkExecResult 0 0), 0).
Proof. reflexivity. Qed.

(** So the loop never sees [null]: no amount of fuel lets it finish. *)
Lemma scanLoop_empty_text {A : Type} (characterSet : string) (collect : ExecResult -> A) :
  forall fuel positions,
    scanLoop fuel (makeWordRegex characterSet) EmptyString collect 0 positions = OutOfFuel.
Proof.
  induction fuel as [| fuel IH]; intro positions; [reflexivity |].
  cbn [scanLoop]. rewrite exec_empty_text. apply IH.
Qed.

(** C2: on ["foo"; EmptyString; "bar"] in Exclusive mode, [getWordLeft] from (2, 0)
    searches the empty line 1 and its scan loop does not terminate; the
    same happens from (0, 0) on the one-line document [EmptyString]. *)
Theorem getWordLeft_diverges_on_empty_line :
  forall fuel,
    getWordLeft scenarioB fuel (newPosition 2 0 Exclusive) = OutOfFuel
    /\ getWordLeft [EmptyString] fuel (newPosition 0 0 Exclusive) = OutOfFuel.
Proof.
  intro fuel. unfold getWordLeft, getWordLeftWithRegex, _nonWordCharRegex. simpl.
  rewrite scanLoop_empty_text. split; reflexivity.
Qed.

(** C3: on ["foo"; EmptyString] in Exclusive mode, [getWordRight] from (1, 0), on
    the empty last line, scans that line and its scan loop does not
    terminate. *)
Theorem getWordRight_diverges_on_empty_last_line :
  forall fuel,
    getWordRight emptyLastLine fuel (newPosition 1 0 Exclusive) = OutOfFuel.
Proof.
  intro fuel. unfold getWordRight, getWordRightWithRegex, _nonWordCharRegex. simpl.
  rewrite scanLoop_empty_text. reflexivity.
Qed.

(** C4: on ["foo"; EmptyString; "bar"] in Exclusive mode, [getCurrentWordEnd] from
    (0, 2), the line end of line 0, advances to the empty line 1 and its
    scan loop does not terminate. *)
Theorem getCurrentWordEnd_diverges_on_empty_line :
  forall fuel,
    getCurrentWordEnd scenarioB fuel (newPosition 0 2 Exclusive) = OutOfFuel.
Proof.
  intro fuel.
  unfold getCurrentWordEnd, getCurrentWordEndWithRegex, _nonWordCharRegex. simpl.
  rewrite scanLoop_empty_text. reflexivity.
Qed.

(** Scenario A: in Exclusive mode on ["foo bar"], [getWordLeft] from
    character 4 is (0, 0). *)
Example getWordLeft_scenarioA :
  forall fuel,
    getWordLeft scenarioA (3 + fuel) (newPosition 0 4 Exclusive)
      = Ok (newPosition 0 0 Exclusive).
Proof. intro fuel. reflexivity. Qed.

(** Scenario D: in Exclusive mode on the last line "abc", [getWordRight]
    from character 2 is the line end, character 2. *)
Example getWordRight_scenarioD :
  forall fuel,
    getWordRight scenarioD (2 + fuel) (newPosition 0 2 Exclusive)
      = Ok (newPosition 0 2 Exclusive)
    /\ getWordRight ["x"; "abc"] (2 + fuel) (newPosition 1 2 Exclusive)
      = Ok (newPosition 1 2 Exclusive).
Proof. intro fuel. split; reflexivity. Qed.

(** ** Termination of the scan loop on non-empty text *)

Lemma runLength_le (cls : ascii -> bool) (s : list ascii) :
  runLength cls s <= List.length s.
Proof.
  induction s as [| c s IH]; simpl; [lia |].
  destruct (cls c); lia.
Qed.

Lemma runLength_skipn_le (cls : ascii -> bool) (s : list ascii) (i : nat) :
  i + runLength cls (skipn i s) <= Nat.max i (List.length s).
Proof.
  pose proof (runLength_le cls (skipn i s)) as H.
  rewrite length_skipn in H. lia.
Qed.

(** A branch [[cls]+] consumes the whole run at [i], which is not empty. *)
Lemma matchAtoms_plus (cls : ascii -> bool) (s : list ascii) (i e : nat) :
  matchAtoms [Repeat cls 1] s i = Some e ->
  e = i + runLength cls (skipn i s) /\ i < e.
Proof.
  simpl. destruct (runLength cls (skipn i s)) as [| k]; simpl.
  - discriminate.
  - intro H. injection H as <-. split; [reflexivity | lia].
Qed.

(** The branch [^[cls]*$] only matches at offset 0 and ends at the end of
    the input. *)
Lemma matchAtoms_whole_line (cls : ascii -> bool) (s : list ascii) (i e : nat) :
  matchAtoms [Bol; Repeat cls 0; Eol] s i = Some e ->
  i = 0 /\ e = List.length s.
Proof.
  cbn -[Nat.eqb]. destruct (Nat.eqb_spec i 0) as [-> | _]; [| discriminate].
  generalize (runLength cls (skipn 0 s)). intro k.
  induction k as [| k IH]; cbn -[Nat.eqb].
  - destruct (Nat.eqb_spec 0 (List.length s)) as [E | _]; [| discriminate].
    intro H. injection H as <-. split; [reflexivity | exact E].
  - destruct (Nat.eqb_spec (S k) (List.length s)) as [E | _]; [| exact IH].
    intro H. injection H as <-. split; [reflexivity | exact E].
Qed.

(** Where a match of a word expression can start and end. *)
Lemma matchBranches_word_bounds (characterSet : string) (s : list ascii) (i e : nat) :
  matchBranches (makeWordRegex characterSet) s i = Some e ->
  i <= e /\ e <= Nat.max i (List.length s) /\ (s <> [] -> i < e).
Proof.
  unfold makeWordRegex, matchBranches.
  destruct (matchAtoms [Bol; Repeat isTabOrSpace 0; Eol] s i) as [e1 |] eqn:E1.
  - intro H. injection H as <-.
    apply matchAtoms_whole_line in E1. destruct E1 as [-> ->].
    split; [lia |]. split; [lia |].
    intro Hne. destruct s; [congruence | simpl; lia].
  - match goal with
    | |- context [matchAtoms [Repeat ?cls 1] s i] =>
        destruct (matchAtoms [Repeat cls 1] s i) as [e2 |] eqn:E2
    end.
    + intro H. injection H as <-.
      apply matchAtoms_plus in E2. destruct E2 as [-> Hlt].
      split; [lia |]. split; [apply runLength_skipn_le | intros _; exact Hlt].
    + match goal with
      | |- context [matchAtoms [Repeat ?cls 1] s i] =>
          destruct (matchAtoms [Repeat cls 1] s i) as [e3 |] eqn:E3
      end; [| discriminate].
      intro H. injection H as <-.
      apply matchAtoms_plus in E3. destruct E3 as [-> Hlt].
      split; [lia |]. split; [apply runLength_skipn_le | intros _; exact Hlt].
Qed.

Lemma execFrom_word_bounds (characterSet : string) (s : list ascii) :
  forall steps i j e,
    execFrom steps (makeWordRegex characterSet) s i = Some (j, e) ->
    i <= j /\ j < i + steps /\ j <= e /\ e <= Nat.max j (List.length s)
    /\ (s <> [] -> j < e).
Proof.
  induction steps as [| steps IH]; intros i j e; cbn [execFrom]; [discriminate |].
  destruct (matchBranches (makeWordRegex characterSet) s i) as [e' |] eqn:E.
  - intro H. injection H as <- <-.
    destruct (matchBranches_word_bounds _ _ _ _ E) as [H1 [H2 H3]].
    repeat split; try assumption; lia.
  - intro H. apply IH in H. destruct H as [H1 [H2 [H3 [H4 H5]]]].
    repeat split; try assumption; lia.
Qed.

Lemma length_list_ascii_of_string (t : string) :
  List.length (list_ascii_of_string t) = String.length t.
Proof. induction t as [| c t IH]; simpl; [reflexivity | f_equal; exact IH]. Qed.

(** A successful [exec] on a non-empty text moves [lastIndex] forward and
    keeps it within the text. *)
Lemma exec_word_progress (characterSet : string) (t : string) (lastIndex : nat)
    (r : ExecResult) (lastIndex' : nat) :
  t <> EmptyString ->
  exec (makeWordRegex characterSet) t lastIndex = (Some r, lastIndex') ->
  lastIndex <= index r
  /\ 1 <= matchLength r
  /\ lastIndex' = index r + matchLength r
  /\ lastIndex' <= String.length t.
Proof.
  intros Hne. unfold exec.
  destruct (execFrom (S (List.length (list_ascii_of_string t)) - lastIndex)
              (makeWordRegex characterSet) (list_ascii_of_string t) lastIndex)
    as [[j e] |] eqn:E; [| discriminate].
  intro H. injection H as <- <-. simpl.
  apply execFrom_word_bounds in E. destruct E as [H1 [H2 [H3 [H4 H5]]]].
  rewrite length_list_ascii_of_string in *.
  assert (Hlt : j < e).
  { apply H5. destruct t; [congruence | discriminate]. }
  lia.
Qed.

(** On a non-empty text the scan loop returns once the fuel exceeds the
    number of start offsets left. *)
Lemma scanLoop_defined {A : Type} (characterSet : string) (collect : ExecResult -> A)
    (t : string) :
  t <> EmptyString ->
  forall fuel lastIndex positions,
    S (String.length t) - lastIndex < fuel ->
    exists all,
      scanLoop fuel (makeWordRegex characterSet) t collect lastIndex positions = Ok all.
Proof.
  intros Hne. induction fuel as [| fuel IH]; intros lastIndex positions Hfuel; [lia |].
  cbn [scanLoop].
  destruct (exec (makeWordRegex characterSet) t lastIndex) as [[r |] lastIndex'] eqn:E.
  - destruct (exec_word_progress _ _ _ _ _ Hne E) as [H1 [H2 [H3 H4]]].
    apply IH. lia.
  - eexists. reflexivity.
Qed.

(** ** The word motions on non-empty lines *)

Lemma getLineAt_Some (doc : Document) (s : Position) (t : string) :
  nth_error doc (line s) = Some t ->
  TextEditor.getLineAt doc s
    = Ok (mkTextLine (line s) t (runLength isWhitespace (list_ascii_of_string t))).
Proof. intro H. unfold TextEditor.getLineAt. rewrite H. reflexivity. Qed.

Lemma getLineEnd_of_length (doc : Document) (s : Position) (len : nat) :
  getLineLength doc (line s) (positionOptions s) = Ok len ->
  getLineEnd doc s = Ok (newPosition (line s) len (positionOptions s)).
Proof. intro H. unfold getLineEnd. rewrite H. reflexivity. Qed.

Lemma atLineEndOfInnerLine_value (doc : Document) (this : Position) (len : nat) :
  getLineLength doc (line this) (positionOptions this) = Ok len ->
  atLineEndOfInnerLine doc this
    = Ok (negb (S (line this) =? TextEditor.getLineCount doc) && (len <=? character this)).
Proof.
  intro H. unfold atLineEndOfInnerLine, TextEditor.isLastLine.
  destruct (S (line this) =? TextEditor.getLineCount doc); simpl; [reflexivity |].
  rewrite (getLineEnd_of_length _ _ _ H). reflexivity.
Qed.

Lemma goToNextLine_value (doc : Document) (this : Position) (t' : string) :
  nth_error doc (S (line this)) = Some t' ->
  goToNextLine doc this
    = Ok (newPosition (S (line this))
            (runLength isWhitespace (list_ascii_of_string t')) (positionOptions this)).
Proof.
  intro H. unfold goToNextLine, translate, TextEditor.getLineAt. simpl.
  rewrite Nat.add_1_r, H. reflexivity.
Qed.

Lemma getLineLength_Ok_recognised (doc : Document) (lineNo : nat) (options : option Z)
    (len : nat) :
  getLineLength doc lineNo options = Ok len -> recognised options.
Proof.
  unfold getLineLength, recognised, Exclusive, Inclusive.
  destruct options as [v |]; [| discriminate].
  destruct (Z.eqb_spec v PositionOptions.CharacterWiseExclusive) as [-> | _];
    [left; reflexivity |].
  destruct (Z.eqb_spec v PositionOptions.CharacterWiseInclusive) as [-> | _];
    [right; reflexivity | discriminate].
Qed.

Lemma getDocumentEnd_value (doc : Document) (this : Position) (lenEnd : nat) :
  0 < TextEditor.getLineCount doc ->
  getLineLength doc (TextEditor.getLineCount doc - 1) (positionOptions this) = Ok lenEnd ->
  getDocumentEnd doc this
    = Ok (newPosition (TextEditor.getLineCount doc - 1) lenEnd (positionOptions this)).
Proof.
  intros Hpos Hlen. unfold getDocumentEnd.
  replace (0 <? TextEditor.getLineCount doc) with true
    by (symmetry; apply Nat.ltb_lt; exact Hpos).
  rewrite Hlen. reflexivity.
Qed.

(** [getWordLeftWithRegex] when the searched line is not empty: the search
    runs over the current line, or over the previous line with the cursor
    taken one past that line's end. *)
Lemma getWordLeftWithRegex_described (doc : Document) (fuel : nat) (this : Position)
    (characterSet : string) (t : string) :
  nth_error doc (line this) = Some t ->
  (line this = 0 \/ runLength isWhitespace (list_ascii_of_string t) < character this ->
   t <> EmptyString -> S (String.length t) < fuel ->
   exists positions,
     scanLoop fuel (makeWordRegex characterSet) t index 0 [] = Ok positions
     /\ getWordLeftWithRegex doc fuel this (makeWordRegex characterSet)
        = match find (fun b => b <? character this) (rev positions) with
          | Some b => Ok (newPosition (line this) b (positionOptions this))
          | None =>
              if line this =? 0 then Ok (getLineBegin this)
              else getLineEnd doc (newPosition (line this - 1) 0 (positionOptions this))
          end)
  /\ (forall tp lenp,
        0 < line this ->
        character this <= runLength isWhitespace (list_ascii_of_string t) ->
        nth_error doc (line this - 1) = Some tp ->
        getLineLength doc (line this - 1) (positionOptions this) = Ok lenp ->
        tp <> EmptyString -> S (String.length tp) < fuel ->
        exists positions,
          scanLoop fuel (makeWordRegex characterSet) tp index 0 [] = Ok positions
          /\ getWordLeftWithRegex doc fuel this (makeWordRegex characterSet)
             = match find (fun b => b <? lenp + 1) (rev positions) with
               | Some b => Ok (newPosition (line this - 1) b (positionOptions this))
               | None => Ok (newPosition (line this - 1) lenp (positionOptions this))
               end).
Proof.
  intro Ht. split.
  - intros Hhere Hne Hfuel.
    destruct (scanLoop_defined characterSet index t Hne fuel 0 [] ltac:(lia))
      as [positions Hscan].
    exists positions. split; [exact Hscan |].
    unfold getWordLeftWithRegex. rewrite (getLineAt_Some _ _ _ Ht). simpl.
    unfold TextEditor.isFirstLine.
    assert (Hcond : negb (line this =? 0)
                    && (character this <=? runLength isWhitespace (list_ascii_of_string t))
                    = false).
    { destruct Hhere as [-> | Hlt]; [reflexivity |].
      apply andb_false_iff. right. apply Nat.leb_gt. exact Hlt. }
    rewrite Hcond. simpl. rewrite Hscan. reflexivity.
  - intros tp lenp Hpos Hle Htp Hlenp Hne Hfuel.
    destruct (scanLoop_defined characterSet index tp Hne fuel 0 [] ltac:(lia))
      as [positions Hscan].
    exists positions. split; [exact Hscan |].
    unfold getWordLeftWithRegex. rewrite (getLineAt_Some _ _ _ Ht). simpl.
    unfold TextEditor.isFirstLine.
    replace (line this =? 0) with false by (symmetry; apply Nat.eqb_neq; lia).
    replace (character this <=? runLength isWhitespace (list_ascii_of_string t))
      with true by (symmetry; apply Nat.leb_le; exact Hle).
    simpl. unfold TextEditor.getLineAt, getLineEnd. simpl. rewrite Htp, Hlenp. simpl.
    rewrite Hscan. simpl.
    destruct (find (fun b => b <? lenp + 1) (rev positions)); reflexivity.
Qed.

(** [getWordRightWithRegex]: the jump to the next line at or past the line
    end, and the search over a non-empty current line otherwise. *)
Lemma getWordRightWithRegex_described (doc : Document) (fuel : nat) (this : Position)
    (characterSet : string) (t : string) (len : nat) :
  nth_error doc (line this) = Some t ->
  getLineLength doc (line this) (positionOptions this) = Ok len ->
  (forall t',
     S (line this) <> TextEditor.getLineCount doc -> len <= character this ->
     nth_error doc (S (line this)) = Some t' ->
     getWordRightWithRegex doc fuel this (makeWordRegex characterSet)
       = Ok (newPosition (S (line this))
               (runLength isWhitespace (list_ascii_of_string t'))
               (positionOptions this)))
  /\ (S (line this) = TextEditor.getLineCount doc \/ character this < len ->
      t <> EmptyString -> S (String.length t) < fuel ->
      exists positions,
        scanLoop fuel (makeWordRegex characterSet) t index 0 [] = Ok positions
        /\ getWordRightWithRegex doc fuel this (makeWordRegex characterSet)
           = match find (fun b => character this <? b) positions with
             | Some b => Ok (newPosition (line this) b (positionOptions this))
             | None =>
                 if S (line this) =? TextEditor.getLineCount doc
                 then Ok (newPosition (line this) len (positionOptions this))
                 else goToNextLine doc this
             end).
Proof.
  intros Ht Hlen. split.
  - intros t' Hnl Hge Ht'.
    unfold getWordRightWithRegex. rewrite (atLineEndOfInnerLine_value _ _ _ Hlen).
    replace (S (line this) =? TextEditor.getLineCount doc) with false
      by (symmetry; apply Nat.eqb_neq; exact Hnl).
    replace (len <=? character this) with true by (symmetry; apply Nat.leb_le; exact Hge).
    simpl. apply goToNextLine_value. exact Ht'.
  - intros Hhere Hne Hfuel.
    destruct (scanLoop_defined characterSet index t Hne fuel 0 [] ltac:(lia))
      as [positions Hscan].
    exists positions. split; [exact Hscan |].
    unfold getWordRightWithRegex. rewrite (atLineEndOfInnerLine_value _ _ _ Hlen).
    assert (Hcond : negb (S (line this) =? TextEditor.getLineCount doc)
                    && (len <=? character this) = false).
    { destruct Hhere as [E | Hlt].
      - apply Nat.eqb_eq in E. rewrite E. reflexivity.
      - apply andb_false_iff. right. apply Nat.leb_gt. exact Hlt. }
    rewrite Hcond. cbn [bind]. rewrite (getLineAt_Some _ _ _ Ht). cbn [bind text].
    rewrite Hscan. cbn [bind].
    destruct (find (fun b => character this <? b) positions); [reflexivity |].
    assert (Hin : line this < TextEditor.getLineCount doc).
    { unfold TextEditor.getLineCount. apply nth_error_Some. congruence. }
    destruct (getLineLength_defined doc (TextEditor.getLineCount doc - 1)
                (positionOptions this) ltac:(lia)
                (getLineLength_Ok_recognised _ _ _ _ Hlen)) as [lenEnd HlenEnd].
    rewrite (getDocumentEnd_value doc this lenEnd ltac:(lia) HlenEnd).
    cbn [bind line].
    destruct (Nat.eqb_spec (S (line this)) (TextEditor.getLineCount doc)) as [E | N].
    + replace (line this =? TextEditor.getLineCount doc - 1) with true
        by (symmetry; apply Nat.eqb_eq; lia).
      apply getLineEnd_of_length. exact Hlen.
    + replace (line this =? TextEditor.getLineCount doc - 1) with false
        by (symmetry; apply Nat.eqb_neq; lia).
      reflexivity.
Qed.

(** [getCurrentWordEndWithRegex] when the searched line is not empty: the
    search runs over the next line from character 0 when the cursor is at
    or past the line end of an inner line, and over the current line
    otherwise; the fallback is the line end of the cursor's own line. *)
Lemma getCurrentWordEndWithRegex_described (doc : Document) (fuel : nat) (this : Position)
    (characterSet : string) (t : string) (len : nat) :
  nth_error doc (line this) = Some t ->
  getLineLength doc (line this) (positionOptions this) = Ok len ->
  (forall t',
     S (line this) <> TextEditor.getLineCount doc -> len <= character this ->
     nth_error doc (S (line this)) = Some t' ->
     t' <> EmptyString -> S (String.length t') < fuel ->
     exists positions,
       scanLoop fuel (makeWordRegex characterSet) t' wordEndOffset 0 [] = Ok positions
       /\ getCurrentWordEndWithRegex doc fuel this (makeWordRegex characterSet)
          = match find (fun b => (Z.of_nat 0 <? b)%Z) positions with
            | Some b =>
                Ok (newPosition (S (line this)) (Z.to_nat b) (positionOptions this))
            | None => Ok (newPosition (line this) len (positionOptions this))
            end)
  /\ (S (line this) = TextEditor.getLineCount doc \/ character this < len ->
      t <> EmptyString -> S (String.length t) < fuel ->
      exists positions,
        scanLoop fuel (makeWordRegex characterSet) t wordEndOffset 0 [] = Ok positions
        /\ getCurrentWordEndWithRegex doc fuel this (makeWordRegex characterSet)
           = match find (fun b => (Z.of_nat (character this) <? b)%Z) positions with
             | Some b =>
                 Ok (newPosition (line this) (Z.to_nat b) (positionOptions this))
             | None => Ok (newPosition (line this) len (positionOptions this))
             end).
Proof.
  intros Ht Hlen. split.
  - intros t' Hnl Hge Ht' Hne Hfuel.
    destruct (scanLoop_defined characterSet wordEndOffset t' Hne fuel 0 [] ltac:(lia))
      as [positions Hscan].
    exists positions. split; [exact Hscan |].
    unfold getCurrentWordEndWithRegex.
    rewrite (getLineAt_Some _ _ _ Ht). cbn [bind].
    rewrite (atLineEndOfInnerLine_value _ _ _ Hlen).
    replace (S (line this) =? TextEditor.getLineCount doc) with false
      by (symmetry; apply Nat.eqb_neq; exact Hnl).
    replace (len <=? character this) with true by (symmetry; apply Nat.leb_le; exact Hge).
    cbn [bind negb andb]. unfold TextEditor.getLineAt. cbn [line].
    rewrite Nat.add_1_r, Ht'. cbn [bind text]. rewrite Hscan. cbn [bind].
    destruct (find (fun b => (Z.of_nat 0 <? b)%Z) positions); [reflexivity |].
    apply getLineEnd_of_length. exact Hlen.
  - intros Hhere Hne Hfuel.
    destruct (scanLoop_defined characterSet wordEndOffset t Hne fuel 0 [] ltac:(lia))
      as [positions Hscan].
    exists positions. split; [exact Hscan |].
    unfold getCurrentWordEndWithRegex.
    rewrite (getLineAt_Some _ _ _ Ht). cbn [bind].
    rewrite (atLineEndOfInnerLine_value _ _ _ Hlen).
    assert (Hcond : negb (S (line this) =? TextEditor.getLineCount doc)
                    && (len <=? character this) = false).
    { destruct Hhere as [E | Hlt].
      - apply Nat.eqb_eq in E. rewrite E. reflexivity.
      - apply andb_false_iff. right. apply Nat.leb_gt. exact Hlt. }
    rewrite Hcond. cbn [bind text line positionOptions]. rewrite Hscan. cbn [bind].
    destruct (find (fun b => (Z.of_nat (character this) <? b)%Z) positions);
      [reflexivity |].
    apply getLineEnd_of_length. exact Hlen.
Qed.

(** [getCurrentWordEnd] over a next line: from the line end of line 0 of
    ["foo"; "a b"] the result is the end of the run "b" on line 1, the run
    "a" ending at the baseline character 0. *)
Example getCurrentWordEnd_next_line :
  forall fuel,
    getCurrentWordEnd ["foo"; "a b"] (3 + fuel) (newPosition 0 2 Exclusive)
      = Ok (newPosition 1 2 Exclusive)
    /\ getCurrentWordEnd ["foo bar"] (3 + fuel) (newPosition 0 0 Exclusive)
      = Ok (newPosition 0 2 Exclusive).
Proof. intro fuel. split; reflexivity. Qed.

(** * Further properties of the motions *)

Lemma bind_Ok_inv {A B : Type} (m : result A) (k : A -> result B) (b : B) :
  bind m k = Ok b -> exists a, m = Ok a /\ k a = Ok b.
Proof.
  destruct m as [a | e |]; simpl; intro H; try discriminate.
  exists a; split; [reflexivity | exact H].
Qed.

Lemma getLineLength_Ok_in_range (doc : Document) (lineNo : nat) (options : option Z)
    (len : nat) :
  getLineLength doc lineNo options = Ok len -> lineNo < TextEditor.getLineCount doc.
Proof.
  intro H. unfold TextEditor.getLineCount. apply nth_error_Some. intro Hnone.
  unfold getLineLength, TextEditor.readLineAt in H. rewrite Hnone in H.
  destruct options as [v |]; [| discriminate].
  destruct (v =? PositionOptions.CharacterWiseExclusive)%Z; [discriminate |].
  destruct (v =? PositionOptions.CharacterWiseInclusive)%Z; discriminate.
Qed.

Lemma getLineLength_onDocument (doc : Document) (p : Position) (len : nat) :
  getLineLength doc (line p) (positionOptions p) = Ok len -> onDocument doc p.
Proof.
  intro H. split.
  - apply (getLineLength_Ok_in_range _ _ _ _ H).
  - apply (getLineLength_Ok_recognised _ _ _ _ H).
Qed.

Lemma isValid_of_length (doc : Document) (p : Position) (len : nat) :
  getLineLength doc (line p) (positionOptions p) = Ok len ->
  isValid doc p = Ok (character p <=? len).
Proof.
  intro H.
  destruct (isValid_on_document doc p (getLineLength_onDocument _ _ _ H))
    as [len' [Hlen' Hv]].
  rewrite H in Hlen'. injection Hlen' as <-. exact Hv.
Qed.

(** X1: on a line of the document and with a handled caret mode,
    [isValid] never throws and answers whether the character is at most
    the line length of the mode; beyond [lineCount] it answers [false]
    whatever the mode. *)
Theorem isValid_decides_character_bound :
  forall (doc : Document) (p : Position),
    (onDocument doc p ->
     exists len,
       getLineLength doc (line p) (positionOptions p) = Ok len
       /\ (isValid doc p = Ok true <-> character p <= len)
       /\ (isValid doc p = Ok false <-> len < character p))
    /\ (TextEditor.getLineCount doc < line p -> isValid doc p = Ok false).
Proof.
  intros doc p. split; [| apply isValid_beyond_count].
  intro Hon. destruct (isValid_on_document doc p Hon) as [len [Hlen Hv]].
  exists len. split; [exact Hlen |]. rewrite Hv.
  destruct (Nat.leb_spec (character p) len) as [Hle | Hgt]; split; split;
    intro H; try reflexivity; try discriminate; try assumption; lia.
Qed.

Lemma isValid_decides_character_bound_witness :
  onDocument scenarioD (newPosition 0 3 Exclusive)
  /\ exists len,
       getLineLength scenarioD 0 Exclusive = Ok len
       /\ (isValid scenarioD (newPosition 0 3 Exclusive) = Ok true <-> 3 <= len)
       /\ (isValid scenarioD (newPosition 0 3 Exclusive) = Ok false <-> len < 3).
Proof.
  assert (Hon : onDocument scenarioD (newPosition 0 3 Exclusive))
    by (split; [simpl; lia | left; reflexivity]).
  split; [exact Hon |].
  exact (proj1 (isValid_decides_character_bound scenarioD (newPosition 0 3 Exclusive)) Hon).
Defined.

(** ** Repeated horizontal steps *)

Lemma getRight_within (doc : Document) (p : Position) (len : nat) :
  getLineLength doc (line p) (positionOptions p) = Ok len ->
  character p <= len ->
  getRight doc p
    = Ok (newPosition (line p) (Nat.min (character p + 1) len) (positionOptions p)).
Proof.
  intros Hlen Hle. unfold getRight, isLineEnd. rewrite Hlen. cbn [bind].
  destruct (Nat.eqb_spec (character p) len) as [E | N]; cbn [negb].
  - replace (Nat.min (character p + 1) len) with (character p) by lia.
    rewrite Position_eta. reflexivity.
  - replace (Nat.min (character p + 1) len) with (character p + 1) by lia.
    reflexivity.
Qed.

(** X2: from a position within its line, [n] steps of [getRight] lead to
    character [min(character + n, lineLength)] of the same line: the steps
    stop at the line end and never leave the line; [n] steps of [getLeft]
    lead to character [character - n], stopping at 0. *)
Theorem horizontal_steps_clamp :
  forall (doc : Document) (p : Position) (len n : nat),
    getLineLength doc (line p) (positionOptions p) = Ok len ->
    character p <= len ->
    getRightTimes doc n p
      = Ok (newPosition (line p) (Nat.min (character p + n) len) (positionOptions p))
    /\ Nat.iter n getLeft p
      = newPosition (line p) (character p - n) (positionOptions p).
Proof.
  intros doc p len n Hlen Hle. split.
  - induction n as [| n IH].
    + unfold getRightTimes. simpl.
      replace (Nat.min (character p + 0) len) with (character p) by lia.
      rewrite Position_eta. reflexivity.
    + change (getRightTimes doc (S n) p)
        with (q <- getRightTimes doc n p ;; getRight doc q).
      rewrite IH. cbn [bind].
      rewrite (getRight_within doc _ len); cbn [line character positionOptions];
        [| exact Hlen | lia].
      f_equal. f_equal. lia.
  - clear Hlen Hle. induction n as [| n IH].
    + simpl. rewrite Nat.sub_0_r, Position_eta. reflexivity.
    + change (Nat.iter (S n) getLeft p) with (getLeft (Nat.iter n getLeft p)).
      rewrite IH. unfold getLeft, isLineBeginning.
      cbn [line character positionOptions].
      destruct (Nat.eqb_spec (character p - n) 0) as [E | N]; cbn [negb].
      * f_equal. lia.
      * f_equal. lia.
Qed.

Lemma horizontal_steps_clamp_witness :
  getLineLength scenarioA 0 Exclusive = Ok 6
  /\ 4 <= 6
  /\ getRightTimes scenarioA 5 (newPosition 0 4 Exclusive) = Ok (newPosition 0 6 Exclusive)
  /\ Nat.iter 5 getLeft (newPosition 0 4 Exclusive) = newPosition 0 0 Exclusive.
Proof.
  split; [reflexivity |]. split; [lia |].
  exact (horizontal_steps_clamp scenarioA (newPosition 0 4 Exclusive) 6 5
           eq_refl ltac:(simpl; lia)).
Defined.

(** ** Line and document boundaries *)

(** X3: on a line of the document, [getLineEnd] returns a valid position
    that [isLineEnd] accepts and that [getRight] and [getLineEnd] leave
    unchanged; [getLineBegin] returns a valid position that [getLeft] and
    [getLineBegin] leave unchanged. *)
Theorem line_boundaries_are_fixed_points :
  forall (doc : Document) (p : Position),
    onDocument doc p ->
    (exists e,
       getLineEnd doc p = Ok e
       /\ line e = line p
       /\ isLineEnd doc e = Ok true
       /\ isValid doc e = Ok true
       /\ getRight doc e = Ok e
       /\ getLineEnd doc e = Ok e)
    /\ (isLineBeginning (getLineBegin p) = true
        /\ isValid doc (getLineBegin p) = Ok true
        /\ getLeft (getLineBegin p) = getLineBegin p
        /\ getLineBegin (getLineBegin p) = getLineBegin p).
Proof.
  intros doc p [Hl Hr].
  destruct (getLineLength_defined doc _ _ Hl Hr) as [len Hlen].
  split.
  - exists (newPosition (line p) len (positionOptions p)).
    split; [apply getLineEnd_of_length; exact Hlen |].
    split; [reflexivity |].
    assert (Hend : isLineEnd doc (newPosition (line p) len (positionOptions p)) = Ok true).
    { unfold isLineEnd. cbn [line character positionOptions]. rewrite Hlen.
      cbn [bind]. rewrite Nat.eqb_refl. reflexivity. }
    split; [exact Hend |].
    split.
    { rewrite (isValid_of_length doc (newPosition (line p) len (positionOptions p))
                 len Hlen).
      cbn [character]. rewrite Nat.leb_refl. reflexivity. }
    split.
    { unfold getRight. rewrite Hend. reflexivity. }
    apply (getLineEnd_of_length doc (newPosition (line p) len (positionOptions p)) len).
    exact Hlen.
  - split; [reflexivity |].
    split; [| split; reflexivity].
    rewrite (isValid_of_length doc (getLineBegin p) len Hlen). reflexivity.
Qed.

Lemma line_boundaries_are_fixed_points_witness :
  onDocument scenarioA (newPosition 0 3 Exclusive)
  /\ exists e,
       getLineEnd scenarioA (newPosition 0 3 Exclusive) = Ok e
       /\ line e = 0
       /\ isLineEnd scenarioA e = Ok true
       /\ isValid scenarioA e = Ok true
       /\ getRight scenarioA e = Ok e
       /\ getLineEnd scenarioA e = Ok e.
Proof.
  assert (Hon : onDocument scenarioA (newPosition 0 3 Exclusive))
    by (split; [simpl; lia | left; reflexivity]).
  split; [exact Hon |].
  exact (proj1 (line_boundaries_are_fixed_points scenarioA (newPosition 0 3 Exclusive) Hon)).
Defined.

(** X4: for a valid position of the document, [getDown] followed by
    [getUp] with the position's own character as desired column gives the
    position back when it is not on the last line, and so does [getUp]
    followed by [getDown] when it is not on the first line, whatever the
    desired column of the first step. *)
Theorem vertical_round_trip :
  forall (doc : Document) (p : Position) (desiredColumn : nat),
    onDocument doc p ->
    isValid doc p = Ok true ->
    (S (line p) < TextEditor.getLineCount doc ->
       (q <- getDown doc p desiredColumn ;; getUp doc q (character p)) = Ok p)
    /\ (0 < line p ->
       (q <- getUp doc p desiredColumn ;; getDown doc q (character p)) = Ok p).
Proof.
  intros doc p d Hon Hvalid. pose proof Hon as [Hl Hr].
  fold (TextEditor.getLineCount doc) in Hl.
  destruct (isValid_on_document doc p Hon) as [len [Hlen Hv]].
  rewrite Hv in Hvalid. injection Hvalid as Hle. apply Nat.leb_le in Hle.
  split.
  - intro Hnext.
    destruct (getDown_on_document doc p d Hon) as [[Hlast _] | [_ [len' [_ Hd]]]]; [lia |].
    rewrite Hd. cbn [bind].
    assert (Honq : onDocument doc (newPosition (line p + 1) (Nat.min len' d) (positionOptions p)))
      by (split; [cbn [line]; fold (TextEditor.getLineCount doc); lia | exact Hr]).
    destruct (getUp_on_document doc _ (character p) Honq)
      as [[Hfirst _] | [_ [len'' [Hlen'' Hu]]]]; [cbn [line] in Hfirst; lia |].
    rewrite Hu. cbn [line positionOptions] in *.
    replace (line p + 1 - 1) with (line p) in * by lia.
    rewrite Hlen in Hlen''. injection Hlen'' as <-.
    rewrite Nat.min_r by exact Hle. rewrite Position_eta. reflexivity.
  - intro Hprev.
    destruct (getUp_on_document doc p d Hon) as [[Hfirst _] | [_ [len' [_ Hu]]]]; [lia |].
    rewrite Hu. cbn [bind].
    assert (Honq : onDocument doc (newPosition (line p - 1) (Nat.min len' d) (positionOptions p)))
      by (split; [cbn [line]; fold (TextEditor.getLineCount doc); lia | exact Hr]).
    destruct (getDown_on_document doc _ (character p) Honq)
      as [[Hlast _] | [_ [len'' [Hlen'' Hd]]]]; [cbn [line] in Hlast; lia |].
    rewrite Hd. cbn [line positionOptions] in *.
    replace (line p - 1 + 1) with (line p) in * by lia.
    rewrite Hlen in Hlen''. injection Hlen'' as <-.
    rewrite Nat.min_r by exact Hle. rewrite Position_eta. reflexivity.
Qed.

Lemma vertical_round_trip_witness :
  onDocument scenarioE (newPosition 0 3 Inclusive)
  /\ isValid scenarioE (newPosition 0 3 Inclusive) = Ok true
  /\ S 0 < TextEditor.getLineCount scenarioE
  /\ (q <- getDown scenarioE (newPosition 0 3 Inclusive) 0 ;; getUp scenarioE q 3)
       = Ok (newPosition 0 3 Inclusive).
Proof.
  assert (Hon : onDocument scenarioE (newPosition 0 3 Inclusive))
    by (split; [simpl; lia | right; reflexivity]).
  split; [exact Hon |]. split; [reflexivity |]. split; [simpl; lia |].
  apply (proj1 (vertical_round_trip scenarioE (newPosition 0 3 Inclusive) 0 Hon eq_refl)).
  simpl; lia.
Defined.

(** X5: on the document, [getDown] and [getUp] answer with a position of
    the document that is valid whenever the step moved to another line;
    when the step did not move, the answer is the position itself.  So
    they take valid positions to valid positions. *)
Theorem vertical_steps_keep_validity :
  forall (doc : Document) (p : Position) (desiredColumn : nat),
    onDocument doc p ->
    (exists q, getDown doc p desiredColumn = Ok q
       /\ onDocument doc q
       /\ (q = p \/ isValid doc q = Ok true)
       /\ (isValid doc p = Ok true -> isValid doc q = Ok true))
    /\ (exists q, getUp doc p desiredColumn = Ok q
       /\ onDocument doc q
       /\ (q = p \/ isValid doc q = Ok true)
       /\ (isValid doc p = Ok true -> isValid doc q = Ok true)).
Proof.
  intros doc p d Hon. pose proof Hon as [Hl Hr].
  fold (TextEditor.getLineCount doc) in Hl. split.
  - destruct (getDown_on_document doc p d Hon) as [[_ Hd] | [Hlt [len [Hlen Hd]]]].
    + exists p. split; [exact Hd |]. split; [exact Hon |]. split; [left; reflexivity | tauto].
    + eexists. split; [exact Hd |].
      assert (Hv : isValid doc (newPosition (line p + 1) (Nat.min len d) (positionOptions p))
                   = Ok true).
      { rewrite (isValid_of_length doc
                   (newPosition (line p + 1) (Nat.min len d) (positionOptions p))
                   len Hlen).
        cbn [character].
        replace (Nat.min len d <=? len) with true
          by (symmetry; apply Nat.leb_le; lia). reflexivity. }
      split;
        [apply (getLineLength_onDocument doc
                  (newPosition (line p + 1) (Nat.min len d) (positionOptions p))
                  len Hlen) |].
      split; [right; exact Hv | intros _; exact Hv].
  - destruct (getUp_on_document doc p d Hon) as [[_ Hu] | [Hlt [len [Hlen Hu]]]].
    + exists p. split; [exact Hu |]. split; [exact Hon |]. split; [left; reflexivity | tauto].
    + eexists. split; [exact Hu |].
      assert (Hv : isValid doc (newPosition (line p - 1) (Nat.min len d) (positionOptions p))
                   = Ok true).
      { rewrite (isValid_of_length doc
                   (newPosition (line p - 1) (Nat.min len d) (positionOptions p))
                   len Hlen).
        cbn [character].
        replace (Nat.min len d <=? len) with true
          by (symmetry; apply Nat.leb_le; lia). reflexivity. }
      split;
        [apply (getLineLength_onDocument doc
                  (newPosition (line p - 1) (Nat.min len d) (positionOptions p))
                  len Hlen) |].
      split; [right; exact Hv | intros _; exact Hv].
Qed.

Lemma vertical_steps_keep_validity_witness :
  onDocument scenarioB (newPosition 0 2 Exclusive)
  /\ exists q, getDown scenarioB (newPosition 0 2 Exclusive) 2 = Ok q
       /\ onDocument scenarioB q
       /\ (q = newPosition 0 2 Exclusive \/ isValid scenarioB q = Ok true)
       /\ (isValid scenarioB (newPosition 0 2 Exclusive) = Ok true
           -> isValid scenarioB q = Ok true).
Proof.
  assert (Hon : onDocument scenarioB (newPosition 0 2 Exclusive))
    by (split; [simpl; lia | left; reflexivity]).
  split; [exact Hon |].
  exact (proj1 (vertical_steps_keep_validity scenarioB (newPosition 0 2 Exclusive) 2 Hon)).
Defined.

(** X6: in a document with at least one line and with a handled caret
    mode, [getDocumentEnd] is the line end of the last line whatever the
    coordinates of the position it is called on; it is valid and is left
    unchanged by [getDown] and [getRight].  [getDocumentBegin] is valid
    and is left unchanged by [getUp] and [getLeft]. *)
Theorem document_boundaries_are_fixed_points :
  forall (doc : Document) (p : Position) (desiredColumn : nat),
    0 < TextEditor.getLineCount doc ->
    recognised (positionOptions p) ->
    (exists e,
       getDocumentEnd doc p = Ok e
       /\ TextEditor.isLastLine doc e = true
       /\ isLineEnd doc e = Ok true
       /\ isValid doc e = Ok true
       /\ getDown doc e desiredColumn = Ok e
       /\ getRight doc e = Ok e)
    /\ (isValid doc (getDocumentBegin p) = Ok true
        /\ getUp doc (getDocumentBegin p) desiredColumn = Ok (getDocumentBegin p)
        /\ getLeft (getDocumentBegin p) = getDocumentBegin p).
Proof.
  intros doc p d Hpos Hr.
  assert (Hlast : TextEditor.getLineCount doc - 1 < TextEditor.getLineCount doc) by lia.
  destruct (getLineLength_defined doc _ _ Hlast Hr) as [len Hlen].
  destruct (getLineLength_defined doc 0 _ Hpos Hr) as [len0 Hlen0].
  set (e := newPosition (TextEditor.getLineCount doc - 1) len (positionOptions p)).
  assert (He : getDocumentEnd doc e = Ok e)
    by (apply (getDocumentEnd_value doc e len Hpos); exact Hlen).
  assert (Hend : isLineEnd doc e = Ok true).
  { unfold isLineEnd, e. cbn [line character positionOptions]. rewrite Hlen.
    cbn [bind]. rewrite Nat.eqb_refl. reflexivity. }
  split.
  - exists e. split; [apply getDocumentEnd_value; assumption |].
    split.
    { unfold TextEditor.isLastLine, e. cbn [line]. apply Nat.eqb_eq. lia. }
    split; [exact Hend |].
    split.
    { rewrite (isValid_of_length doc e len Hlen). unfold e. cbn [character].
      rewrite Nat.leb_refl. reflexivity. }
    split.
    { unfold getDown. rewrite He. cbn [bind]. rewrite Nat.eqb_refl. reflexivity. }
    unfold getRight. rewrite Hend. reflexivity.
  - split.
    { rewrite (isValid_of_length doc (getDocumentBegin p) len0 Hlen0). reflexivity. }
    split; reflexivity.
Qed.

Lemma document_boundaries_are_fixed_points_witness :
  0 < TextEditor.getLineCount scenarioB
  /\ recognised Exclusive
  /\ exists e,
       getDocumentEnd scenarioB (newPosition 0 1 Exclusive) = Ok e
       /\ TextEditor.isLastLine scenarioB e = true
       /\ isLineEnd scenarioB e = Ok true
       /\ isValid scenarioB e = Ok true
       /\ getDown scenarioB e 7 = Ok e
       /\ getRight scenarioB e = Ok e.
Proof.
  assert (Hpos : 0 < TextEditor.getLineCount scenarioB) by (simpl; lia).
  assert (Hr : recognised Exclusive) by (left; reflexivity).
  split; [exact Hpos |]. split; [exact Hr |].
  exact (proj1 (document_boundaries_are_fixed_points scenarioB
                  (newPosition 0 1 Exclusive) 7 Hpos Hr)).
Defined.

(** ** The first non-blank character *)

Lemma runLength_spec (cls : ascii -> bool) (s : list ascii) :
  (forall k, k < runLength cls s -> exists c, nth_error s k = Some c /\ cls c = true)
  /\ (forall c, nth_error s (runLength cls s) = Some c -> cls c = false).
Proof.
  induction s as [| a s [IH1 IH2]]; simpl.
  - split; [intros k Hk; lia | intros c H; discriminate].
  - destruct (cls a) eqn:Ea.
    + split.
      * intros [| k] Hk; [exists a; split; [reflexivity | exact Ea] |].
        apply IH1. lia.
      * intros c H. apply IH2. exact H.
    + split; [intros k Hk; lia |].
      intros c H. simpl in H. injection H as <-. exact Ea.
Qed.

Lemma stringMatch_leadingWhitespace (t : string) :
  stringMatch leadingWhitespaceRegex t
    = Some (mkExecResult 0 (runLength isWhitespace (list_ascii_of_string t))).
Proof.
  unfold stringMatch, exec. rewrite Nat.sub_0_r. cbn [execFrom].
  unfold leadingWhitespaceRegex. cbn -[runLength isWhitespace Nat.ltb].
  generalize (runLength isWhitespace (list_ascii_of_string t)). intro k.
  destruct k; cbn; rewrite ?Nat.sub_0_r; reflexivity.
Qed.

(** X7: on a line of the document [getFirstNonBlankCharAtLine] never
    meets a [null] match; its answer is the line object's
    [firstNonWhitespaceCharacterIndex]: an offset at most the length of
    the line, with only whitespace before it and, when it is inside the
    line, a character that is not whitespace at it. *)
Theorem getFirstNonBlankCharAtLine_is_leading_whitespace :
  forall (doc : Document) (p : Position) (t : string),
    nth_error doc (line p) = Some t ->
    exists n,
      getFirstNonBlankCharAtLine doc (line p) = Ok (Some n)
      /\ (exists l, TextEditor.getLineAt doc p = Ok l
                    /\ firstNonWhitespaceCharacterIndex l = n)
      /\ n <= String.length t
      /\ (forall k, k < n ->
            exists c, nth_error (list_ascii_of_string t) k = Some c
                      /\ isWhitespace c = true)
      /\ (forall c, nth_error (list_ascii_of_string t) n = Some c ->
            isWhitespace c = false).
Proof.
  intros doc p t Ht.
  exists (runLength isWhitespace (list_ascii_of_string t)).
  split.
  { unfold getFirstNonBlankCharAtLine. rewrite (readLineAt_Some _ _ _ Ht). cbn [bind].
    rewrite stringMatch_leadingWhitespace. reflexivity. }
  split.
  { eexists. split; [apply getLineAt_Some; exact Ht | reflexivity]. }
  split.
  { rewrite <- length_list_ascii_of_string. apply runLength_le. }
  apply runLength_spec.
Qed.

Lemma getFirstNonBlankCharAtLine_is_leading_whitespace_witness :
  nth_error whitespaceBetween 1 = Some spaceTabLine
  /\ exists n,
       getFirstNonBlankCharAtLine whitespaceBetween 1 = Ok (Some n)
       /\ n <= String.length spaceTabLine.
Proof.
  split; [reflexivity |].
  destruct (getFirstNonBlankCharAtLine_is_leading_whitespace whitespaceBetween
              (newPosition 1 0 Exclusive) spaceTabLine eq_refl)
    as [n [Hn [_ [Hle _]]]].
  exists n. split; [exact Hn | exact Hle].
Defined.

(** ** What the scan loop collects *)

Lemma sorted_map {A B : Type} (f : A -> B) (P : A -> Prop)
    (R : A -> A -> Prop) (R' : B -> B -> Prop) :
  (forall a a', P a -> P a' -> R a a' -> R' (f a) (f a')) ->
  forall rs, Forall P rs -> StronglySorted R rs -> StronglySorted R' (map f rs).
Proof.
  intros Hf. induction rs as [| r rs IH]; intros HP HS; simpl; [constructor |].
  inversion HP as [| ? ? Hr Hrs]; subst.
  inversion HS as [| ? ? HS' Hall]; subst.
  constructor; [apply IH; assumption |].
  apply Forall_map. rewrite Forall_forall in *.
  intros a Ha. apply Hf; [exact Hr | apply Hrs; exact Ha | apply Hall; exact Ha].
Qed.

(** The matches seen by the loop do not depend on what is collected from
    them; they are non-empty, lie within the text, and each starts at or
    after the end of the one before. *)
Lemma scanLoop_results {A : Type} (characterSet : string) (collect : ExecResult -> A)
    (t : string) :
  t <> EmptyString ->
  forall fuel lastIndex positions all,
    scanLoop fuel (makeWordRegex characterSet) t collect lastIndex positions = Ok all ->
    exists rs,
      (forall (B : Type) (collect' : ExecResult -> B) (positions' : list B),
         scanLoop fuel (makeWordRegex characterSet) t collect' lastIndex positions'
           = Ok (positions' ++ map collect' rs)%list)
      /\ Forall (fun r => lastIndex <= index r) rs
      /\ Forall (fun r => 1 <= matchLength r
                          /\ index r + matchLength r <= String.length t) rs
      /\ StronglySorted (fun r r' => index r + matchLength r <= index r') rs.
Proof.
  intros Hne. induction fuel as [| fuel IH]; intros lastIndex positions all;
    cbn [scanLoop]; [discriminate |].
  destruct (exec (makeWordRegex characterSet) t lastIndex) as [[r |] lastIndex'] eqn:E.
  - intro Hrun. destruct (exec_word_progress _ _ _ _ _ Hne E) as [H1 [H2 [H3 H4]]].
    destruct (IH _ _ _ Hrun) as [rs [Hany [Hfrom [Hin Hsorted]]]].
    exists (r :: rs). split; [| split; [| split]].
    + intros B collect' positions'. rewrite Hany, <- app_assoc. reflexivity.
    + constructor; [exact H1 |].
      eapply Forall_impl; [| exact Hfrom]. intros a Ha. simpl in Ha. lia.
    + constructor; [split; [exact H2 | lia] | exact Hin].
    + constructor; [exact Hsorted |].
      eapply Forall_impl; [| exact Hfrom]. intros a Ha. simpl in Ha. lia.
  - intros _. exists []. split; [| split; [| split]]; try constructor.
    intros B collect' positions'. rewrite app_nil_r. reflexivity.
Qed.

(** X8: the scan loop of the word motions returns on every non-empty
    line, as soon as the fuel exceeds the length of the line by two, and
    on the empty line it returns for no fuel at all, whatever the
    punctuation set and whatever is collected. *)
Theorem scanLoop_returns_iff_nonempty :
  forall (A : Type) (characterSet : string) (collect : ExecResult -> A) (t : string),
    (t <> EmptyString ->
     forall fuel, S (String.length t) < fuel ->
       exists all, scanLoop fuel (makeWordRegex characterSet) t collect 0 [] = Ok all)
    /\ ((exists fuel all,
           scanLoop fuel (makeWordRegex characterSet) t collect 0 [] = Ok all)
        -> t <> EmptyString).
Proof.
  intros A characterSet collect t. split.
  - intros Hne fuel Hfuel. apply scanLoop_defined; [exact Hne | lia].
  - intros [fuel [all Hrun]] ->.
    rewrite scanLoop_empty_text in Hrun. discriminate.
Qed.

Lemma scanLoop_returns_iff_nonempty_witness :
  "abc" <> EmptyString /\ S (String.length "abc") < 5
  /\ exists all, scanLoop 5 (makeWordRegex NonWordCharacters) "abc" index 0 [] = Ok all.
Proof.
  assert (Hne : "abc" <> EmptyString) by discriminate.
  assert (Hfuel : S (String.length "abc") < 5) by (simpl; lia).
  split; [exact Hne |]. split; [exact Hfuel |].
  exact (proj1 (scanLoop_returns_iff_nonempty nat NonWordCharacters index "abc")
           Hne 5 Hfuel).
Defined.

(** X9: whenever the scan loop returns, the start offsets it collected
    are strictly increasing and inside the line, the end offsets
    collected by [getCurrentWordEndWithRegex] are strictly increasing and
    inside the line too, and the two lists go run by run: each end offset
    is at or after the start offset of the same run. *)
Theorem scanLoop_offsets_increase :
  forall (characterSet : string) (t : string) (fuel : nat) (positions : list nat),
    scanLoop fuel (makeWordRegex characterSet) t index 0 [] = Ok positions ->
    StronglySorted Nat.lt positions
    /\ Forall (fun b => b < String.length t) positions
    /\ exists ends,
         scanLoop fuel (makeWordRegex characterSet) t wordEndOffset 0 [] = Ok ends
         /\ StronglySorted Z.lt ends
         /\ Forall (fun e => (0 <= e < Z.of_nat (String.length t))%Z) ends
         /\ Forall2 (fun b e => (Z.of_nat b <= e)%Z) positions ends.
Proof.
  intros characterSet t fuel positions Hrun.
  assert (Hne : t <> EmptyString).
  { intros ->. rewrite scanLoop_empty_text in Hrun. discriminate. }
  destruct (scanLoop_results characterSet index t Hne fuel 0 [] positions Hrun)
    as [rs [Hany [_ [Hin Hsorted]]]].
  rewrite (Hany nat index []) in Hrun. injection Hrun as <-. cbn [app].
  split.
  { apply (sorted_map index _ _ Nat.lt) with (2 := Hin) (3 := Hsorted).
    intros a a' [Ha _] _ Hle. unfold Nat.lt. lia. }
  split.
  { apply Forall_map. eapply Forall_impl; [| exact Hin].
    intros a [Ha Hb]. simpl. lia. }
  exists (map wordEndOffset rs).
  split; [exact (Hany Z wordEndOffset []) |].
  split.
  { apply (sorted_map wordEndOffset _ _ Z.lt) with (2 := Hin) (3 := Hsorted).
    intros a a' [Ha _] [Ha' _] Hle. unfold wordEndOffset. lia. }
  split.
  { apply Forall_map. eapply Forall_impl; [| exact Hin].
    intros a [Ha Hb]. unfold wordEndOffset. simpl. lia. }
  clear Hany Hsorted. induction rs as [| r rs IH]; simpl; [constructor |].
  inversion Hin as [| ? ? [Hr _] Hrs]; subst.
  constructor; [unfold wordEndOffset; lia | apply IH; exact Hrs].
Qed.

Lemma scanLoop_offsets_increase_witness :
  scanLoop 6 (makeWordRegex NonWordCharacters) "a, b" index 0 [] = Ok [0; 1; 3]
  /\ StronglySorted Nat.lt [0; 1; 3]
  /\ Forall (fun b => b < 4) [0; 1; 3].
Proof.
  assert (Hrun : scanLoop 6 (makeWordRegex NonWordCharacters) "a, b" index 0 []
                 = Ok [0; 1; 3]) by reflexivity.
  split; [exact Hrun |].
  destruct (scanLoop_offsets_increase NonWordCharacters "a, b" 6 [0; 1; 3] Hrun)
    as [Hs [Hb _]].
  split; [exact Hs | exact Hb].
Defined.

(** ** The direction of the word motions *)

Lemma getLineEnd_inv (doc : Document) (p r : Position) :
  getLineEnd doc p = Ok r ->
  exists len,
    getLineLength doc (line p) (positionOptions p) = Ok len
    /\ r = newPosition (line p) len (positionOptions p).
Proof.
  unfold getLineEnd. intro H. apply bind_Ok_inv in H. destruct H as [len [Hlen H]].
  injection H as <-. exists len. split; [exact Hlen | reflexivity].
Qed.

Lemma getLineAt_inv (doc : Document) (p : Position) (l : TextLine) :
  TextEditor.getLineAt doc p = Ok l ->
  exists t,
    nth_error doc (line p) = Some t
    /\ l = mkTextLine (line p) t (runLength isWhitespace (list_ascii_of_string t)).
Proof.
  unfold TextEditor.getLineAt. destruct (nth_error doc (line p)) as [t |]; [| discriminate].
  intro H. injection H as <-. exists t. split; reflexivity.
Qed.

Lemma goToNextLine_inv (doc : Document) (this r : Position) :
  goToNextLine doc this = Ok r ->
  exists t',
    nth_error doc (S (line this)) = Some t'
    /\ r = newPosition (S (line this))
             (runLength isWhitespace (list_ascii_of_string t')) (positionOptions this).
Proof.
  unfold goToNextLine. intro H. apply bind_Ok_inv in H. destruct H as [l [Hl H]].
  apply getLineAt_inv in Hl. destruct Hl as [t' [Ht' ->]].
  unfold translate in Ht'. cbn [line] in Ht'. rewrite Nat.add_1_r in Ht'.
  injection H as <-. exists t'. split; [exact Ht' |].
  cbn [lineNumber firstNonWhitespaceCharacterIndex]. unfold translate. cbn [line].
  rewrite Nat.add_1_r. reflexivity.
Qed.

Lemma atLineEndOfInnerLine_true (doc : Document) (this : Position) :
  atLineEndOfInnerLine doc this = Ok true ->
  S (line this) <> TextEditor.getLineCount doc
  /\ exists len,
       getLineLength doc (line this) (positionOptions this) = Ok len
       /\ len <= character this.
Proof.
  unfold atLineEndOfInnerLine, TextEditor.isLastLine.
  destruct (Nat.eqb_spec (S (line this)) (TextEditor.getLineCount doc)) as [E | N];
    cbn [negb]; [discriminate |].
  intro H. apply bind_Ok_inv in H. destruct H as [e [He H]].
  apply getLineEnd_inv in He. destruct He as [len [Hlen ->]].
  cbn [character] in H. injection H as H. apply Nat.leb_le in H.
  split; [exact N |]. exists len. split; [exact Hlen | exact H].
Qed.

(** X10: whatever the expression, a position returned by
    [getWordLeftWithRegex] keeps the caret mode and lies strictly before
    the cursor, on an earlier line or earlier on the same line; the only
    other answer is the line begin of line 0, for a cursor on line 0. *)
Theorem getWordLeft_moves_backward :
  forall (doc : Document) (fuel : nat) (this : Position) (regex : RegExp) (r : Position),
    getWordLeftWithRegex doc fuel this regex = Ok r ->
    positionOptions r = positionOptions this
    /\ (S (line r) = line this
        \/ (line r = line this /\ character r < character this)
        \/ (line this = 0 /\ r = getLineBegin this)).
Proof.
  intros doc fuel this regex r H. unfold getWordLeftWithRegex in H.
  apply bind_Ok_inv in H. destruct H as [cl [_ H]].
  apply bind_Ok_inv in H. destruct H as [[[wp cl'] cc] [Hs H]].
  cbn beta iota in H.
  apply bind_Ok_inv in H. destruct H as [positions [_ H]].
  destruct (negb (TextEditor.isFirstLine doc this)
            && (character this <=? firstNonWhitespaceCharacterIndex cl)) eqn:Hc.
  - apply bind_Ok_inv in Hs. destruct Hs as [cl2 [_ Hs]].
    apply bind_Ok_inv in Hs. destruct Hs as [e [_ Hs]].
    injection Hs as <- <- <-.
    apply andb_prop in Hc. destruct Hc as [Hnf _].
    unfold TextEditor.isFirstLine in Hnf. apply negb_true_iff in Hnf.
    destruct (find (fun position => position <? character e + 1) (rev positions)).
    + injection H as <-. cbn [line positionOptions].
      apply Nat.eqb_neq in Hnf. split; [reflexivity | left; lia].
    + rewrite Hnf in H. apply getLineEnd_inv in H. destruct H as [len [_ ->]].
      cbn [line positionOptions]. apply Nat.eqb_neq in Hnf.
      split; [reflexivity | left; lia].
  - injection Hs as <- <- <-.
    destruct (find (fun position => position <? character this) (rev positions))
      as [b |] eqn:Hf.
    + apply find_some in Hf. destruct Hf as [_ Hlt]. apply Nat.ltb_lt in Hlt.
      injection H as <-. cbn [line character positionOptions].
      split; [reflexivity | right; left; split; [reflexivity | exact Hlt]].
    + destruct (Nat.eqb_spec (line this) 0) as [E | N].
      * injection H as <-. split; [reflexivity | right; right; split; [exact E | reflexivity]].
      * apply getLineEnd_inv in H. destruct H as [len [_ ->]].
        cbn [line positionOptions]. split; [reflexivity | left; lia].
Qed.

Lemma getWordLeft_moves_backward_witness :
  getWordLeftWithRegex scenarioA 5 (newPosition 0 6 Exclusive) _nonWordCharRegex
    = Ok (newPosition 0 4 Exclusive)
  /\ (S 0 = 0 \/ (0 = 0 /\ 4 < 6)
      \/ (0 = 0 /\ newPosition 0 4 Exclusive = getLineBegin (newPosition 0 6 Exclusive))).
Proof.
  assert (Hrun : getWordLeftWithRegex scenarioA 5 (newPosition 0 6 Exclusive)
                   _nonWordCharRegex = Ok (newPosition 0 4 Exclusive)) by reflexivity.
  split; [exact Hrun |].
  exact (proj2 (getWordLeft_moves_backward scenarioA 5 (newPosition 0 6 Exclusive)
                  _nonWordCharRegex (newPosition 0 4 Exclusive) Hrun)).
Defined.

(** X11: whatever the expression, a position returned by
    [getWordRightWithRegex] keeps the caret mode and is either the first
    non-whitespace offset of the next line, or a later character of the
    same line, or, on the last line only, the line end. *)
Theorem getWordRight_moves_forward :
  forall (doc : Document) (fuel : nat) (this : Position) (regex : RegExp) (r : Position),
    getWordRightWithRegex doc fuel this regex = Ok r ->
    positionOptions r = positionOptions this
    /\ ((exists t',
           nth_error doc (S (line this)) = Some t'
           /\ line r = S (line this)
           /\ character r = runLength isWhitespace (list_ascii_of_string t'))
        \/ (line r = line this /\ character this < character r)
        \/ (TextEditor.isLastLine doc this = true /\ getLineEnd doc this = Ok r)).
Proof.
  intros doc fuel this regex r H. unfold getWordRightWithRegex in H.
  apply bind_Ok_inv in H. destruct H as [atEnd [_ H]].
  assert (Hjump : forall q, goToNextLine doc this = Ok q ->
            positionOptions q = positionOptions this
            /\ ((exists t',
                   nth_error doc (S (line this)) = Some t'
                   /\ line q = S (line this)
                   /\ character q = runLength isWhitespace (list_ascii_of_string t'))
                \/ (line q = line this /\ character this < character q)
                \/ (TextEditor.isLastLine doc this = true /\ getLineEnd doc this = Ok q))).
  { intros q Hq. apply goToNextLine_inv in Hq. destruct Hq as [t' [Ht' ->]].
    split; [reflexivity |]. left. exists t'. repeat split. exact Ht'. }
  destruct atEnd; [apply Hjump; exact H |].
  apply bind_Ok_inv in H. destruct H as [cl [Hcl H]].
  apply bind_Ok_inv in H. destruct H as [positions [_ H]].
  destruct (find (fun position => character this <? position) positions) as [b |] eqn:Hf.
  - apply find_some in Hf. destruct Hf as [_ Hlt]. apply Nat.ltb_lt in Hlt.
    injection H as <-. cbn [line character positionOptions].
    split; [reflexivity | right; left; split; [reflexivity | exact Hlt]].
  - apply bind_Ok_inv in H. destruct H as [docEnd [Hde H]].
    destruct (Nat.eqb_spec (line this) (line docEnd)) as [E | N];
      [| apply Hjump; exact H].
    pose proof H as Hend. apply getLineEnd_inv in H. destruct H as [len [_ ->]].
    split; [reflexivity |]. right. right. split; [| exact Hend].
    apply getLineAt_inv in Hcl. destruct Hcl as [t [Ht _]].
    assert (Hin : line this < TextEditor.getLineCount doc)
      by (unfold TextEditor.getLineCount; apply nth_error_Some; congruence).
    unfold getDocumentEnd in Hde. apply bind_Ok_inv in Hde.
    destruct Hde as [char [_ Hde]]. injection Hde as <-. cbn [line] in E.
    replace (0 <? TextEditor.getLineCount doc) with true in E
      by (symmetry; apply Nat.ltb_lt; lia).
    unfold TextEditor.isLastLine. apply Nat.eqb_eq. lia.
Qed.

Lemma getWordRight_moves_forward_witness :
  getWordRightWithRegex scenarioB 5 (newPosition 0 2 Exclusive) _nonWordCharRegex
    = Ok (newPosition 1 0 Exclusive)
  /\ positionOptions (newPosition 1 0 Exclusive) = Exclusive.
Proof.
  assert (Hrun : getWordRightWithRegex scenarioB 5 (newPosition 0 2 Exclusive)
                   _nonWordCharRegex = Ok (newPosition 1 0 Exclusive)) by reflexivity.
  split; [exact Hrun |].
  exact (proj1 (getWordRight_moves_forward scenarioB 5 (newPosition 0 2 Exclusive)
                  _nonWordCharRegex (newPosition 1 0 Exclusive) Hrun)).
Defined.

(** X12: whatever the expression, a position returned by
    [getCurrentWordEndWithRegex] keeps the caret mode and is either a
    character after offset 0 of the next line, reached from the line end
    of an inner line, or a later character of the same line, or the line
    end of the cursor's own line. *)
Theorem getCurrentWordEnd_moves_forward :
  forall (doc : Document) (fuel : nat) (this : Position) (regex : RegExp) (r : Position),
    getCurrentWordEndWithRegex doc fuel this regex = Ok r ->
    positionOptions r = positionOptions this
    /\ ((atLineEndOfInnerLine doc this = Ok true
         /\ line r = S (line this) /\ 0 < character r)
        \/ (line r = line this /\ character this < character r)
        \/ getLineEnd doc this = Ok r).
Proof.
  intros doc fuel this regex r H. unfold getCurrentWordEndWithRegex in H.
  apply bind_Ok_inv in H. destruct H as [cl [_ H]].
  apply bind_Ok_inv in H. destruct H as [atEnd [HatEnd H]].
  apply bind_Ok_inv in H. destruct H as [[[wp cl'] cc] [Hs H]].
  cbn beta iota in H.
  apply bind_Ok_inv in H. destruct H as [positions [_ H]].
  destruct (find (fun position => (Z.of_nat cc <? position)%Z) positions)
    as [b |] eqn:Hf.
  - apply find_some in Hf. destruct Hf as [_ Hlt]. apply Z.ltb_lt in Hlt.
    injection H as <-. destruct atEnd.
    + apply bind_Ok_inv in Hs. destruct Hs as [cl2 [_ Hs]]. injection Hs as <- <- <-.
      cbn [line character positionOptions].
      split; [reflexivity |]. left. split; [exact HatEnd |]. split; lia.
    + injection Hs as <- <- <-. cbn [line character positionOptions].
      split; [reflexivity |]. right. left. split; [reflexivity | lia].
  - pose proof H as Hend. apply getLineEnd_inv in H. destruct H as [len [_ ->]].
    split; [reflexivity |]. right. right. exact Hend.
Qed.

Lemma getCurrentWordEnd_moves_forward_witness :
  getCurrentWordEndWithRegex scenarioA 5 (newPosition 0 2 Exclusive) _nonWordCharRegex
    = Ok (newPosition 0 6 Exclusive)
  /\ positionOptions (newPosition 0 6 Exclusive) = Exclusive.
Proof.
  assert (Hrun : getCurrentWordEndWithRegex scenarioA 5 (newPosition 0 2 Exclusive)
                   _nonWordCharRegex = Ok (newPosition 0 6 Exclusive)) by reflexivity.
  split; [exact Hrun |].
  exact (proj1 (getCurrentWordEnd_moves_forward scenarioA 5 (newPosition 0 2 Exclusive)
                  _nonWordCharRegex (newPosition 0 6 Exclusive) Hrun)).
Defined.

(** ** The word motions and validity *)

Lemma scanLoop_index_bound (characterSet : string) (t : string) (fuel : nat)
    (positions : list nat) (b : nat) :
  scanLoop fuel (makeWordRegex characterSet) t index 0 [] = Ok positions ->
  In b positions -> b < String.length t.
Proof.
  intros Hrun Hin.
  assert (Hne : t <> EmptyString).
  { intros ->. rewrite scanLoop_empty_text in Hrun. discriminate. }
  destruct (scanLoop_results characterSet index t Hne fuel 0 [] positions Hrun)
    as [rs [Hany [_ [Hall _]]]].
  rewrite (Hany nat index []) in Hrun. injection Hrun as <-. cbn [app] in Hin.
  apply in_map_iff in Hin. destruct Hin as [r [<- Hr]].
  rewrite Forall_forall in Hall. destruct (Hall r Hr). lia.
Qed.

Lemma scanLoop_end_bound (characterSet : string) (t : string) (fuel : nat)
    (ends : list Z) (e : Z) :
  scanLoop fuel (makeWordRegex characterSet) t wordEndOffset 0 [] = Ok ends ->
  In e ends -> (0 <= e < Z.of_nat (String.length t))%Z.
Proof.
  intros Hrun Hin.
  assert (Hne : t <> EmptyString).
  { intros ->. rewrite scanLoop_empty_text in Hrun. discriminate. }
  destruct (scanLoop_results characterSet wordEndOffset t Hne fuel 0 [] ends Hrun)
    as [rs [Hany [_ [Hall _]]]].
  rewrite (Hany Z wordEndOffset []) in Hrun. injection Hrun as <-. cbn [app] in Hin.
  apply in_map_iff in Hin. destruct Hin as [r [<- Hr]].
  rewrite Forall_forall in Hall. destruct (Hall r Hr). unfold wordEndOffset. lia.
Qed.

(** An offset inside the text of a line is at most the line length of
    either mode. *)
Lemma offset_within_lineLength (doc : Document) (lineNo : nat) (options : option Z)
    (t : string) (len b : nat) :
  nth_error doc lineNo = Some t ->
  getLineLength doc lineNo options = Ok len ->
  b < String.length t -> b <= len.
Proof.
  intros Ht Hlen Hb.
  destruct (getLineLength_Ok_recognised _ _ _ _ Hlen) as [-> | ->].
  - rewrite (getLineLength_exclusive _ _ _ Ht) in Hlen. injection Hlen as <-. lia.
  - rewrite (getLineLength_inclusive _ _ _ Ht) in Hlen. injection Hlen as <-. lia.
Qed.

Lemma isValid_at_offset (doc : Document) (lineNo : nat) (options : option Z)
    (t : string) (b : nat) :
  nth_error doc lineNo = Some t -> recognised options -> b < String.length t ->
  isValid doc (newPosition lineNo b options) = Ok true.
Proof.
  intros Ht Hr Hb.
  assert (Hin : lineNo < TextEditor.getLineCount doc)
    by (unfold TextEditor.getLineCount; apply nth_error_Some; congruence).
  destruct (getLineLength_defined doc lineNo options Hin Hr) as [len Hlen].
  rewrite (isValid_of_length doc (newPosition lineNo b options) len Hlen).
  cbn [character].
  replace (b <=? len) with true
    by (symmetry; apply Nat.leb_le; eapply offset_within_lineLength; eassumption).
  reflexivity.
Qed.

Lemma isValid_lineEnd (doc : Document) (p r : Position) :
  getLineEnd doc p = Ok r -> isValid doc r = Ok true.
Proof.
  intro H. apply getLineEnd_inv in H. destruct H as [len [Hlen ->]].
  rewrite (isValid_of_length doc (newPosition (line p) len (positionOptions p)) len Hlen).
  cbn [character]. rewrite Nat.leb_refl. reflexivity.
Qed.

Lemma isValid_lineBegin (doc : Document) (p : Position) :
  onDocument doc p -> isValid doc (getLineBegin p) = Ok true.
Proof.
  intros [Hl Hr]. destruct (getLineLength_defined doc _ _ Hl Hr) as [len Hlen].
  rewrite (isValid_of_length doc (getLineBegin p) len Hlen). reflexivity.
Qed.

(** X13: with a handled caret mode, every position returned by
    [getWordLeftWithRegex] for a word or big-word expression is valid. *)
Theorem getWordLeft_returns_valid_position :
  forall (doc : Document) (fuel : nat) (this : Position) (characterSet : string)
         (r : Position),
    recognised (positionOptions this) ->
    getWordLeftWithRegex doc fuel this (makeWordRegex characterSet) = Ok r ->
    isValid doc r = Ok true.
Proof.
  intros doc fuel this characterSet r Hr H. unfold getWordLeftWithRegex in H.
  apply bind_Ok_inv in H. destruct H as [cl [Hcl H]].
  apply getLineAt_inv in Hcl. destruct Hcl as [t [Ht ->]].
  assert (Hon : onDocument doc this).
  { split; [apply nth_error_Some; congruence | exact Hr]. }
  apply bind_Ok_inv in H. destruct H as [[[wp cl'] cc] [Hs H]].
  cbn beta iota in H.
  apply bind_Ok_inv in H. destruct H as [positions [Hscan H]].
  assert (Hfallback :
            (if line this =? 0 then Ok (getLineBegin this)
             else getLineEnd doc (newPosition (line this - 1) 0 (positionOptions this)))
            = Ok r -> isValid doc r = Ok true).
  { destruct (line this =? 0).
    - intro E. injection E as <-. apply isValid_lineBegin. exact Hon.
    - apply isValid_lineEnd. }
  destruct (negb (TextEditor.isFirstLine doc this)
            && (character this <=? firstNonWhitespaceCharacterIndex
                  (mkTextLine (line this) t
                     (runLength isWhitespace (list_ascii_of_string t))))).
  - apply bind_Ok_inv in Hs. destruct Hs as [cl2 [Hcl2 Hs]].
    apply getLineAt_inv in Hcl2. destruct Hcl2 as [tp [Htp ->]].
    apply bind_Ok_inv in Hs. destruct Hs as [e [_ Hs]].
    injection Hs as <- <- <-. cbn [line text positionOptions] in *.
    destruct (find (fun position => position <? character e + 1) (rev positions))
      as [b |] eqn:Hf; [| apply Hfallback; exact H].
    injection H as <-. apply find_some in Hf. destruct Hf as [Hin _].
    apply in_rev in Hin.
    apply (isValid_at_offset doc (line this - 1) (positionOptions this) tp b Htp Hr).
    exact (scanLoop_index_bound _ _ _ _ _ Hscan Hin).
  - injection Hs as <- <- <-. cbn [line text positionOptions] in *.
    destruct (find (fun position => position <? character this) (rev positions))
      as [b |] eqn:Hf; [| apply Hfallback; exact H].
    injection H as <-. apply find_some in Hf. destruct Hf as [Hin _].
    apply in_rev in Hin.
    apply (isValid_at_offset doc (line this) (positionOptions this) t b Ht Hr).
    exact (scanLoop_index_bound _ _ _ _ _ Hscan Hin).
Qed.

Lemma getWordLeft_returns_valid_position_witness :
  recognised Exclusive
  /\ getWordLeftWithRegex whitespaceBetween 5 (newPosition 2 0 Exclusive)
       (makeWordRegex NonWordCharacters) = Ok (newPosition 1 0 Exclusive)
  /\ isValid whitespaceBetween (newPosition 1 0 Exclusive) = Ok true.
Proof.
  assert (Hr : recognised Exclusive) by (left; reflexivity).
  assert (Hrun : getWordLeftWithRegex whitespaceBetween 5 (newPosition 2 0 Exclusive)
                   (makeWordRegex NonWordCharacters) = Ok (newPosition 1 0 Exclusive))
    by reflexivity.
  split; [exact Hr |]. split; [exact Hrun |].
  exact (getWordLeft_returns_valid_position whitespaceBetween 5
           (newPosition 2 0 Exclusive) NonWordCharacters (newPosition 1 0 Exclusive)
           Hr Hrun).
Defined.

(** X14: with a handled caret mode, every position returned by
    [getCurrentWordEndWithRegex] for a word or big-word expression is
    valid. *)
Theorem getCurrentWordEnd_returns_valid_position :
  forall (doc : Document) (fuel : nat) (this : Position) (characterSet : string)
         (r : Position),
    recognised (positionOptions this) ->
    getCurrentWordEndWithRegex doc fuel this (makeWordRegex characterSet) = Ok r ->
    isValid doc r = Ok true.
Proof.
  intros doc fuel this characterSet r Hr H. unfold getCurrentWordEndWithRegex in H.
  apply bind_Ok_inv in H. destruct H as [cl [Hcl H]].
  apply getLineAt_inv in Hcl. destruct Hcl as [t [Ht ->]].
  apply bind_Ok_inv in H. destruct H as [atEnd [_ H]].
  apply bind_Ok_inv in H. destruct H as [[[wp cl'] cc] [Hs H]].
  cbn beta iota in H.
  apply bind_Ok_inv in H. destruct H as [ends [Hscan H]].
  destruct (find (fun position => (Z.of_nat cc <? position)%Z) ends) as [e |] eqn:Hf;
    [| apply (isValid_lineEnd doc this r H)].
  injection H as <-. apply find_some in Hf. destruct Hf as [Hin _].
  destruct atEnd.
  - apply bind_Ok_inv in Hs. destruct Hs as [cl2 [Hcl2 Hs]].
    apply getLineAt_inv in Hcl2. destruct Hcl2 as [tn [Htn ->]].
    injection Hs as <- <- <-. cbn [line text positionOptions] in *.
    apply (isValid_at_offset doc (line this + 1) (positionOptions this) tn _ Htn Hr).
    pose proof (scanLoop_end_bound _ _ _ _ _ Hscan Hin). lia.
  - injection Hs as <- <- <-. cbn [line text positionOptions] in *.
    apply (isValid_at_offset doc (line this) (positionOptions this) t _ Ht Hr).
    pose proof (scanLoop_end_bound _ _ _ _ _ Hscan Hin). lia.
Qed.

Lemma getCurrentWordEnd_returns_valid_position_witness :
  recognised Exclusive
  /\ getCurrentWordEndWithRegex scenarioA 5 (newPosition 0 2 Exclusive)
       (makeWordRegex NonWordCharacters) = Ok (newPosition 0 6 Exclusive)
  /\ isValid scenarioA (newPosition 0 6 Exclusive) = Ok true.
Proof.
  assert (Hr : recognised Exclusive) by (left; reflexivity).
  assert (Hrun : getCurrentWordEndWithRegex scenarioA 5 (newPosition 0 2 Exclusive)
                   (makeWordRegex NonWordCharacters) = Ok (newPosition 0 6 Exclusive))
    by reflexivity.
  split; [exact Hr |]. split; [exact Hrun |].
  exact (getCurrentWordEnd_returns_valid_position scenarioA 5
           (newPosition 0 2 Exclusive) NonWordCharacters (newPosition 0 6 Exclusive)
           Hr Hrun).
Defined.

Lemma runLength_all (cls : ascii -> bool) (s : list ascii) :
  Forall (fun c => cls c = true) s -> runLength cls s = List.length s.
Proof.
  induction 1 as [| c s Hc _ IH]; simpl; [reflexivity |].
  rewrite Hc, IH. reflexivity.
Qed.

(** X15: with a handled caret mode, every position returned by
    [getWordRightWithRegex] for a word or big-word expression is on a line
    of the document, and it is valid except in one case: in Exclusive mode,
    when the motion went to a next line that is not empty and whose first
    non-whitespace offset is its length, the character returned is that
    length, one more than the last valid character. *)
Theorem getWordRight_returns_position_on_document :
  forall (doc : Document) (fuel : nat) (this : Position) (characterSet : string)
         (r : Position),
    recognised (positionOptions this) ->
    getWordRightWithRegex doc fuel this (makeWordRegex characterSet) = Ok r ->
    onDocument doc r
    /\ (isValid doc r = Ok true
        \/ (positionOptions this = Exclusive
            /\ line r = S (line this)
            /\ exists t', nth_error doc (line r) = Some t'
                 /\ t' <> EmptyString
                 /\ runLength isWhitespace (list_ascii_of_string t') = String.length t'
                 /\ character r = String.length t'
                 /\ isValid doc r = Ok false)).
Proof.
  intros doc fuel this characterSet r Hr H.
  assert (Hjump : forall q, goToNextLine doc this = Ok q ->
            onDocument doc q
            /\ (isValid doc q = Ok true
                \/ (positionOptions this = Exclusive
                    /\ line q = S (line this)
                    /\ exists t', nth_error doc (line q) = Some t'
                         /\ t' <> EmptyString
                         /\ runLength isWhitespace (list_ascii_of_string t')
                            = String.length t'
                         /\ character q = String.length t'
                         /\ isValid doc q = Ok false))).
  { intros q Hq. apply goToNextLine_inv in Hq. destruct Hq as [t' [Ht' ->]].
    assert (Hin : S (line this) < TextEditor.getLineCount doc)
      by (unfold TextEditor.getLineCount; apply nth_error_Some; congruence).
    split; [split; [exact Hin | exact Hr] |].
    pose proof (runLength_le isWhitespace (list_ascii_of_string t')) as Hle.
    rewrite length_list_ascii_of_string in Hle.
    destruct Hr as [Ho | Ho]; rewrite Ho.
    - pose proof (getLineLength_exclusive doc _ _ Ht') as Hlen.
      rewrite (isValid_of_length doc
                 (newPosition (S (line this))
                    (runLength isWhitespace (list_ascii_of_string t')) Exclusive)
                 _ Hlen).
      cbn [character line].
      destruct (Nat.leb_spec (runLength isWhitespace (list_ascii_of_string t'))
                  (String.length t' - 1)) as [Hok | Hbad].
      + left. reflexivity.
      + right. split; [reflexivity |]. split; [reflexivity |].
        exists t'. split; [exact Ht' |].
        split; [intros ->; simpl in Hbad; lia |].
        split; [lia |]. split; [lia | reflexivity].
    - left. pose proof (getLineLength_inclusive doc _ _ Ht') as Hlen.
      rewrite (isValid_of_length doc
                 (newPosition (S (line this))
                    (runLength isWhitespace (list_ascii_of_string t')) Inclusive)
                 _ Hlen).
      cbn [character].
      replace (runLength isWhitespace (list_ascii_of_string t') <=? String.length t')
        with true by (symmetry; apply Nat.leb_le; exact Hle).
      reflexivity. }
  unfold getWordRightWithRegex in H.
  apply bind_Ok_inv in H. destruct H as [atEnd [_ H]].
  destruct atEnd; [apply Hjump; exact H |].
  apply bind_Ok_inv in H. destruct H as [cl [Hcl H]].
  apply getLineAt_inv in Hcl. destruct Hcl as [t [Ht ->]]. cbn [text] in H.
  apply bind_Ok_inv in H. destruct H as [positions [Hscan H]].
  destruct (find (fun position => character this <? position) positions) as [b |] eqn:Hf.
  - injection H as <-. apply find_some in Hf. destruct Hf as [Hin _].
    split.
    + split; [cbn [line]; apply nth_error_Some; congruence | exact Hr].
    + left. apply (isValid_at_offset doc (line this) (positionOptions this) t b Ht Hr).
      exact (scanLoop_index_bound _ _ _ _ _ Hscan Hin).
  - apply bind_Ok_inv in H. destruct H as [docEnd [_ H]].
    destruct (line this =? line docEnd); [| apply Hjump; exact H].
    split; [| left; apply (isValid_lineEnd doc this r H)].
    apply getLineEnd_inv in H. destruct H as [len [Hlen ->]].
    apply (getLineLength_onDocument doc
             (newPosition (line this) len (positionOptions this)) len Hlen).
Qed.

Lemma getWordRight_returns_position_on_document_witness :
  recognised Exclusive
  /\ getWordRightWithRegex whitespaceBetween 5 (newPosition 0 2 Exclusive)
       (makeWordRegex NonWordCharacters) = Ok (newPosition 1 2 Exclusive)
  /\ onDocument whitespaceBetween (newPosition 1 2 Exclusive).
Proof.
  assert (Hr : recognised Exclusive) by (left; reflexivity).
  assert (Hrun : getWordRightWithRegex whitespaceBetween 5 (newPosition 0 2 Exclusive)
                   (makeWordRegex NonWordCharacters) = Ok (newPosition 1 2 Exclusive))
    by reflexivity.
  split; [exact Hr |]. split; [exact Hrun |].
  exact (proj1 (getWordRight_returns_position_on_document whitespaceBetween 5
                  (newPosition 0 2 Exclusive) NonWordCharacters
                  (newPosition 1 2 Exclusive) Hr Hrun)).
Defined.

(** X16: in Exclusive mode, from a cursor at or past the line end of a
    line that is not the last, [getWordRightWithRegex] onto a next line
    that is not empty and consists of whitespace only answers the
    character equal to that line's length, a position that [isValid]
    rejects; no fuel is needed, the line is not scanned. *)
Theorem getWordRight_onto_whitespace_line :
  forall (doc : Document) (fuel : nat) (this : Position) (regex : RegExp)
         (t t' : string),
    positionOptions this = Exclusive ->
    nth_error doc (line this) = Some t ->
    String.length t - 1 <= character this ->
    nth_error doc (S (line this)) = Some t' ->
    t' <> EmptyString ->
    Forall (fun c => isWhitespace c = true) (list_ascii_of_string t') ->
    getWordRightWithRegex doc fuel this regex
      = Ok (newPosition (S (line this)) (String.length t') Exclusive)
    /\ isValid doc (newPosition (S (line this)) (String.length t') Exclusive) = Ok false.
Proof.
  intros doc fuel this regex t t' Ho Ht Hge Ht' Hne Hall.
  pose proof (getLineLength_exclusive doc _ _ Ht) as Hlen. rewrite <- Ho in Hlen.
  assert (Hin : S (line this) < TextEditor.getLineCount doc)
    by (unfold TextEditor.getLineCount; apply nth_error_Some; congruence).
  split.
  - unfold getWordRightWithRegex. rewrite (atLineEndOfInnerLine_value _ _ _ Hlen).
    replace (S (line this) =? TextEditor.getLineCount doc) with false
      by (symmetry; apply Nat.eqb_neq; lia).
    replace (String.length t - 1 <=? character this) with true
      by (symmetry; apply Nat.leb_le; exact Hge).
    cbn [bind negb andb]. rewrite (goToNextLine_value _ _ _ Ht').
    rewrite (runLength_all _ _ Hall), length_list_ascii_of_string, Ho. reflexivity.
  - pose proof (getLineLength_exclusive doc _ _ Ht') as Hlen'.
    rewrite (isValid_of_length doc
               (newPosition (S (line this)) (String.length t') Exclusive) _ Hlen').
    cbn [character]. f_equal. apply Nat.leb_gt.
    destruct t'; [congruence | simpl; lia].
Qed.

Lemma getWordRight_onto_whitespace_line_witness :
  nth_error whitespaceBetween 0 = Some "foo"
  /\ String.length "foo" - 1 <= 2
  /\ nth_error whitespaceBetween 1 = Some spaceTabLine
  /\ getWordRightWithRegex whitespaceBetween 0 (newPosition 0 2 Exclusive) _nonWordCharRegex
     = Ok (newPosition 1 2 Exclusive)
  /\ isValid whitespaceBetween (newPosition 1 2 Exclusive) = Ok false.
Proof.
  assert (Hge : String.length "foo" - 1 <= 2) by (simpl; lia).
  assert (Hne : spaceTabLine <> EmptyString) by discriminate.
  assert (Hall : Forall (fun c => isWhitespace c = true)
                   (list_ascii_of_string spaceTabLine)) by (repeat constructor).
  split; [reflexivity |]. split; [exact Hge |]. split; [reflexivity |].
  exact (getWordRight_onto_whitespace_line whitespaceBetween 0
           (newPosition 0 2 Exclusive) _nonWordCharRegex "foo" spaceTabLine
           eq_refl eq_refl Hge eq_refl Hne Hall).
Defined.

(** ** Where the paragraph motions land *)

(** The descending loop again, now recording a property [Q] of every line
    it steps over. *)
Lemma descend_loop_passed (doc : Document) (cond : Position -> result bool)
    (start : Position) (Q : nat -> Prop) :
  (forall s, onDocument doc s ->
     exists c, cond s = Ok c
       /\ (c = true -> S (line s) < TextEditor.getLineCount doc /\ Q (line s))) ->
  forall fuel, onDocument doc start -> TextEditor.getLineCount doc - line start < fuel ->
  exists s',
    while fuel cond (fun pos => getDown doc pos 0) start = Ok s'
    /\ onDocument doc s'
    /\ positionOptions s' = positionOptions start
    /\ line start <= line s'
    /\ cond s' = Ok false
    /\ (forall i, line start <= i < line s' -> Q i).
Proof.
  intros Hcond fuel Hon Hfuel.
  destruct (while_invariant cond (fun pos => getDown doc pos 0)
              (fun s => onDocument doc s
                        /\ positionOptions s = positionOptions start
                        /\ line start <= line s
                        /\ (forall i, line start <= i < line s -> Q i))
              (fun s => TextEditor.getLineCount doc - line s))
    with (fuel := fuel) (s := start) as [s' [Hrun [[Hon' [Ho [Hl HQ]]] Hc]]].
  - intros s [Hs [Ho [Hl HQ]]]. destruct (Hcond s Hs) as [c [Hc Hstep]].
    exists c. split; [exact Hc |]. intro Htrue. destruct (Hstep Htrue) as [Hlt Hq].
    eexists. split; [apply getDown_zero_step; assumption |].
    destruct Hs as [Hsl Hsr]. cbn [line positionOptions].
    split; [| lia].
    split; [split; [exact Hlt | exact Hsr] |].
    split; [exact Ho |]. split; [lia |].
    intros i Hi. destruct (Nat.eq_dec i (line s)) as [-> | Hneq];
      [exact Hq | apply HQ; lia].
  - split; [exact Hon |]. split; [reflexivity |]. split; [lia |]. intros i Hi. lia.
  - exact Hfuel.
  - exists s'. repeat (split; [assumption |]). exact HQ.
Qed.

Lemma ascend_loop_passed (doc : Document) (cond : Position -> result bool)
    (start : Position) (Q : nat -> Prop) :
  (forall s, onDocument doc s ->
     exists c, cond s = Ok c /\ (c = true -> 0 < line s /\ Q (line s))) ->
  forall fuel, onDocument doc start -> line start < fuel ->
  exists s',
    while fuel cond (fun pos => getUp doc pos 0) start = Ok s'
    /\ onDocument doc s'
    /\ positionOptions s' = positionOptions start
    /\ line s' <= line start
    /\ cond s' = Ok false
    /\ (forall i, line s' < i <= line start -> Q i).
Proof.
  intros Hcond fuel Hon Hfuel.
  destruct (while_invariant cond (fun pos => getUp doc pos 0)
              (fun s => onDocument doc s
                        /\ positionOptions s = positionOptions start
                        /\ line s <= line start
                        /\ (forall i, line s < i <= line start -> Q i))
              (fun s => line s))
    with (fuel := fuel) (s := start) as [s' [Hrun [[Hon' [Ho [Hl HQ]]] Hc]]].
  - intros s [Hs [Ho [Hl HQ]]]. destruct (Hcond s Hs) as [c [Hc Hstep]].
    exists c. split; [exact Hc |]. intro Htrue. destruct (Hstep Htrue) as [Hlt Hq].
    eexists. split; [apply getUp_zero_step; assumption |].
    destruct Hs as [Hsl Hsr]. cbn [line positionOptions].
    split; [| lia].
    split; [split; [cbn [line]; lia | exact Hsr] |].
    split; [exact Ho |]. split; [lia |].
    intros i Hi. destruct (Nat.eq_dec i (line s)) as [-> | Hneq];
      [exact Hq | apply HQ; lia].
  - split; [exact Hon |]. split; [reflexivity |]. split; [lia |]. intros i Hi. lia.
  - exact Hfuel.
  - exists s'. repeat (split; [assumption |]). exact HQ.
Qed.

Lemma paragraphEndSkipBlank_passes (doc : Document) (s : Position) :
  onDocument doc s ->
  exists c, paragraphEndSkipBlank doc s = Ok c
    /\ (c = true -> S (line s) < TextEditor.getLineCount doc
                    /\ nth_error doc (line s) = Some EmptyString).
Proof.
  intros [Hl _]. destruct (nth_error_in_range doc _ Hl) as [t Ht].
  rewrite (paragraphEndSkipBlank_value _ _ _ Ht). eexists. split; [reflexivity |].
  intro H. apply andb_prop in H. destruct H as [Ht0 H].
  apply String.eqb_eq in Ht0. subst t.
  apply negb_true_iff, Nat.eqb_neq in H. unfold TextEditor.getLineCount in *.
  split; [lia | exact Ht].
Qed.

Lemma paragraphEndInside_passes (doc : Document) (s : Position) :
  onDocument doc s ->
  exists c, paragraphEndInside doc s = Ok c
    /\ (c = true -> S (line s) < TextEditor.getLineCount doc
                    /\ nth_error doc (line s) <> Some EmptyString).
Proof.
  intros [Hl _]. destruct (nth_error_in_range doc _ Hl) as [t Ht].
  rewrite (paragraphEndInside_value _ _ _ Ht). eexists. split; [reflexivity |].
  intro H. apply andb_prop in H. destruct H as [Ht0 H].
  apply negb_true_iff, String.eqb_neq in Ht0. apply Nat.ltb_lt in H.
  split; [exact H | congruence].
Qed.

Lemma paragraphBeginSkipBlank_passes (doc : Document) (s : Position) :
  onDocument doc s ->
  exists c, paragraphBeginSkipBlank doc s = Ok c
    /\ (c = true -> 0 < line s /\ nth_error doc (line s) = Some EmptyString).
Proof.
  intros [Hl _]. destruct (nth_error_in_range doc _ Hl) as [t Ht].
  rewrite (paragraphBeginSkipBlank_value _ _ _ Ht). eexists. split; [reflexivity |].
  intro H. apply andb_prop in H. destruct H as [Ht0 H].
  apply String.eqb_eq in Ht0. subst t.
  apply negb_true_iff, Nat.eqb_neq in H. split; [lia | exact Ht].
Qed.

Lemma paragraphBeginInside_passes (doc : Document) (s : Position) :
  onDocument doc s ->
  exists c, paragraphBeginInside doc s = Ok c
    /\ (c = true -> 0 < line s /\ nth_error doc (line s) <> Some EmptyString).
Proof.
  intros [Hl _]. destruct (nth_error_in_range doc _ Hl) as [t Ht].
  rewrite (paragraphBeginInside_value _ _ _ Ht). eexists. split; [reflexivity |].
  intro H. apply andb_prop in H. destruct H as [H Ht0].
  apply negb_true_iff, String.eqb_neq in Ht0. apply Nat.ltb_lt in H.
  split; [exact H | congruence].
Qed.

(** X17: from a position of the document, with fuel above the line count,
    [getCurrentParagraphEnd] first walks down over empty lines only, to
    the first line [j] at or after the cursor that is not empty or is the
    last line; it then walks down over non-empty lines only, to the first
    line [k] at or after [j] that is empty or is the last line, and it
    returns the line end of [k], a valid position. *)
Theorem paragraphEnd_lands_on_next_delimiter :
  forall (doc : Document) (fuel : nat) (p : Position),
    onDocument doc p -> TextEditor.getLineCount doc < fuel ->
    exists j k len,
      line p <= j /\ j <= k /\ k < TextEditor.getLineCount doc
      /\ (forall i, line p <= i < j -> nth_error doc i = Some EmptyString)
      /\ (S j = TextEditor.getLineCount doc \/ nth_error doc j <> Some EmptyString)
      /\ (forall i, j <= i < k -> nth_error doc i <> Some EmptyString)
      /\ (S k = TextEditor.getLineCount doc \/ nth_error doc k = Some EmptyString)
      /\ getLineLength doc k (positionOptions p) = Ok len
      /\ getCurrentParagraphEnd doc fuel p = Ok (newPosition k len (positionOptions p))
      /\ isValid doc (newPosition k len (positionOptions p)) = Ok true.
Proof.
  intros doc fuel p Hon Hfuel.
  destruct (descend_loop_passed doc (paragraphEndSkipBlank doc) p
              (fun i => nth_error doc i = Some EmptyString)
              (paragraphEndSkipBlank_passes doc) fuel Hon ltac:(lia))
    as [s1 [Hrun1 [Hon1 [Ho1 [Hl1 [Hc1 HQ1]]]]]].
  destruct (descend_loop_passed doc (paragraphEndInside doc) s1
              (fun i => nth_error doc i <> Some EmptyString)
              (paragraphEndInside_passes doc) fuel Hon1 ltac:(lia))
    as [s2 [Hrun2 [Hon2 [Ho2 [Hl2 [Hc2 HQ2]]]]]].
  pose proof Hon1 as [Hlt1 _]. fold (TextEditor.getLineCount doc) in Hlt1.
  pose proof Hon2 as [Hlt2 Hr2]. fold (TextEditor.getLineCount doc) in Hlt2.
  destruct (nth_error_in_range doc _ Hlt1) as [t1 Ht1].
  destruct (nth_error_in_range doc _ Hlt2) as [t2 Ht2].
  destruct (getLineLength_defined doc _ _ Hlt2 Hr2) as [len Hlen].
  rewrite Ho2, Ho1 in Hlen.
  exists (line s1), (line s2), len.
  split; [exact Hl1 |]. split; [exact Hl2 |]. split; [exact Hlt2 |].
  split; [exact HQ1 |].
  split.
  { rewrite (paragraphEndSkipBlank_value _ _ _ Ht1) in Hc1.
    destruct (Nat.eqb_spec (S (line s1)) (TextEditor.getLineCount doc)) as [E | N];
      [left; exact E | right].
    cbn [negb] in Hc1. rewrite andb_true_r in Hc1.
    assert (Hb : String.eqb t1 EmptyString = false) by congruence.
    apply String.eqb_neq in Hb. congruence. }
  split; [exact HQ2 |].
  split.
  { rewrite (paragraphEndInside_value _ _ _ Ht2) in Hc2.
    destruct (Nat.ltb_spec (S (line s2)) (TextEditor.getLineCount doc)) as [Hlt | Hge];
      [right | left; lia].
    rewrite andb_true_r in Hc2.
    assert (Hb : negb (String.eqb t2 EmptyString) = false) by congruence.
    apply negb_false_iff, String.eqb_eq in Hb. congruence. }
  split; [exact Hlen |].
  split.
  { unfold getCurrentParagraphEnd. rewrite Hrun1. cbn [bind]. rewrite Hrun2. cbn [bind].
    unfold getLineEnd. rewrite Ho2, Ho1, Hlen. reflexivity. }
  rewrite (isValid_of_length doc (newPosition (line s2) len (positionOptions p)) len Hlen).
  cbn [character]. rewrite Nat.leb_refl. reflexivity.
Qed.

Lemma paragraphEnd_lands_on_next_delimiter_witness :
  onDocument scenarioB (newPosition 1 0 Exclusive)
  /\ TextEditor.getLineCount scenarioB < 4
  /\ exists j k len,
       1 <= j /\ j <= k /\ k < 3
       /\ getCurrentParagraphEnd scenarioB 4 (newPosition 1 0 Exclusive)
          = Ok (newPosition k len Exclusive).
Proof.
  assert (Hon : onDocument scenarioB (newPosition 1 0 Exclusive))
    by (split; [simpl; lia | left; reflexivity]).
  assert (Hfuel : TextEditor.getLineCount scenarioB < 4) by (simpl; lia).
  split; [exact Hon |]. split; [exact Hfuel |].
  destruct (paragraphEnd_lands_on_next_delimiter scenarioB 4
              (newPosition 1 0 Exclusive) Hon Hfuel)
    as [j [k [len [H1 [H2 [H3 [_ [_ [_ [_ [_ [Hres _]]]]]]]]]]]].
  exists j, k, len. repeat (split; [assumption |]). exact Hres.
Defined.

(** X18: from a position of the document, with fuel above the line count,
    [getCurrentParagraphBeginning] first walks up over empty lines only,
    to the first line [j] at or before the cursor that is not empty or is
    line 0; it then walks up over non-empty lines only, to the first line
    [k] at or before [j] that is empty or is line 0, and it returns
    character 0 of [k], a valid position. *)
Theorem paragraphBegin_lands_on_previous_delimiter :
  forall (doc : Document) (fuel : nat) (p : Position),
    onDocument doc p -> TextEditor.getLineCount doc < fuel ->
    exists j k,
      k <= j /\ j <= line p
      /\ (forall i, j < i <= line p -> nth_error doc i = Some EmptyString)
      /\ (j = 0 \/ nth_error doc j <> Some EmptyString)
      /\ (forall i, k < i <= j -> nth_error doc i <> Some EmptyString)
      /\ (k = 0 \/ nth_error doc k = Some EmptyString)
      /\ getCurrentParagraphBeginning doc fuel p = Ok (newPosition k 0 (positionOptions p))
      /\ isValid doc (newPosition k 0 (positionOptions p)) = Ok true.
Proof.
  intros doc fuel p Hon Hfuel. pose proof Hon as [Hlp Hrp].
  fold (TextEditor.getLineCount doc) in Hlp.
  destruct (ascend_loop_passed doc (paragraphBeginSkipBlank doc) p
              (fun i => nth_error doc i = Some EmptyString)
              (paragraphBeginSkipBlank_passes doc) fuel Hon ltac:(lia))
    as [s1 [Hrun1 [Hon1 [Ho1 [Hl1 [Hc1 HQ1]]]]]].
  destruct (ascend_loop_passed doc (paragraphBeginInside doc) s1
              (fun i => nth_error doc i <> Some EmptyString)
              (paragraphBeginInside_passes doc) fuel Hon1 ltac:(lia))
    as [s2 [Hrun2 [Hon2 [Ho2 [Hl2 [Hc2 HQ2]]]]]].
  pose proof Hon1 as [Hlt1 _]. fold (TextEditor.getLineCount doc) in Hlt1.
  pose proof Hon2 as [Hlt2 Hr2]. fold (TextEditor.getLineCount doc) in Hlt2.
  destruct (nth_error_in_range doc _ Hlt1) as [t1 Ht1].
  destruct (nth_error_in_range doc _ Hlt2) as [t2 Ht2].
  exists (line s1), (line s2).
  split; [exact Hl2 |]. split; [exact Hl1 |].
  split; [exact HQ1 |].
  split.
  { rewrite (paragraphBeginSkipBlank_value _ _ _ Ht1) in Hc1.
    destruct (Nat.eqb_spec (line s1) 0) as [E | N]; [left; exact E | right].
    cbn [negb] in Hc1. rewrite andb_true_r in Hc1.
    assert (Hb : String.eqb t1 EmptyString = false) by congruence.
    apply String.eqb_neq in Hb. congruence. }
  split; [exact HQ2 |].
  split.
  { rewrite (paragraphBeginInside_value _ _ _ Ht2) in Hc2.
    destruct (Nat.ltb_spec 0 (line s2)) as [Hlt | Hge]; [right | left; lia].
    cbn [andb] in Hc2.
    assert (Hb : negb (String.eqb t2 EmptyString) = false) by congruence.
    apply negb_false_iff, String.eqb_eq in Hb. congruence. }
  split.
  { unfold getCurrentParagraphBeginning. rewrite Hrun1. cbn [bind].
    rewrite Hrun2. cbn [bind]. unfold getLineBegin. rewrite Ho2, Ho1. reflexivity. }
  apply (isValid_lineBegin doc (newPosition (line s2) 0 (positionOptions p))).
  split; [exact Hlt2 | exact Hrp].
Qed.

Lemma paragraphBegin_lands_on_previous_delimiter_witness :
  onDocument scenarioB (newPosition 1 0 Exclusive)
  /\ TextEditor.getLineCount scenarioB < 4
  /\ exists j k,
       k <= j /\ j <= 1
       /\ getCurrentParagraphBeginning scenarioB 4 (newPosition 1 0 Exclusive)
          = Ok (newPosition k 0 Exclusive).
Proof.
  assert (Hon : onDocument scenarioB (newPosition 1 0 Exclusive))
    by (split; [simpl; lia | left; reflexivity]).
  assert (Hfuel : TextEditor.getLineCount scenarioB < 4) by (simpl; lia).
  split; [exact Hon |]. split; [exact Hfuel |].
  destruct (paragraphBegin_lands_on_previous_delimiter scenarioB 4
              (newPosition 1 0 Exclusive) Hon Hfuel)
    as [j [k [H1 [H2 [_ [_ [_ [_ [Hres _]]]]]]]]].
  exists j, k. repeat (split; [assumption |]). exact Hres.
Defined.

(** ** The paragraph motions on every input *)

Lemma recognised_dec (options : option Z) :
  recognised options \/ (options <> Exclusive /\ options <> Inclusive).
Proof.
  unfold recognised, Exclusive, Inclusive.
  destruct options as [v |]; [| right; split; discriminate].
  destruct (Z.eq_dec v PositionOptions.CharacterWiseExclusive) as [-> | N1];
    [left; left; reflexivity |].
  destruct (Z.eq_dec v PositionOptions.CharacterWiseInclusive) as [-> | N2];
    [left; right; reflexivity |].
  right. split; congruence.
Qed.

Lemma getDown_unhandled (doc : Document) (p : Position) (desiredColumn : nat) :
  positionOptions p <> Exclusive -> positionOptions p <> Inclusive ->
  getDown doc p desiredColumn = Throw (UnhandledPositionOptions (positionOptions p)).
Proof.
  intros HE HI. unfold getDown, getDocumentEnd.
  rewrite (getLineLength_unhandled doc _ _ HE HI). reflexivity.
Qed.

Lemma getUp_unhandled (doc : Document) (p : Position) (desiredColumn : nat) :
  positionOptions p <> Exclusive -> positionOptions p <> Inclusive ->
  line p <> 0 ->
  getUp doc p desiredColumn = Throw (UnhandledPositionOptions (positionOptions p)).
Proof.
  intros HE HI Hl. unfold getUp, getDocumentBegin. cbn [line].
  replace (0 =? line p) with false by (symmetry; apply Nat.eqb_neq; lia).
  cbn [negb]. rewrite (getLineLength_unhandled doc _ _ HE HI). reflexivity.
Qed.

(** X19: with fuel above the line count the paragraph motions answer on
    every input, they never run out of fuel.  On a line outside the
    document both throw at the first line lookup.  On a line of the
    document with an unset or unhandled caret mode,
    [getCurrentParagraphEnd] always throws, while
    [getCurrentParagraphBeginning] throws except on line 0, where it
    returns the line begin. *)
Theorem paragraph_motions_always_answer :
  forall (doc : Document) (fuel : nat) (p : Position),
    TextEditor.getLineCount doc < fuel ->
    (getCurrentParagraphEnd doc fuel p <> OutOfFuel
     /\ getCurrentParagraphBeginning doc fuel p <> OutOfFuel)
    /\ (TextEditor.getLineCount doc <= line p ->
        getCurrentParagraphEnd doc fuel p = Throw (IllegalLine (line p))
        /\ getCurrentParagraphBeginning doc fuel p = Throw (IllegalLine (line p)))
    /\ (line p < TextEditor.getLineCount doc ->
        positionOptions p <> Exclusive -> positionOptions p <> Inclusive ->
        getCurrentParagraphEnd doc fuel p
          = Throw (UnhandledPositionOptions (positionOptions p))
        /\ getCurrentParagraphBeginning doc fuel p
          = (if line p =? 0 then Ok (getLineBegin p)
             else Throw (UnhandledPositionOptions (positionOptions p)))).
Proof.
  intros doc fuel p Hfuel.
  assert (Hout : TextEditor.getLineCount doc <= line p ->
            getCurrentParagraphEnd doc fuel p = Throw (IllegalLine (line p))
            /\ getCurrentParagraphBeginning doc fuel p = Throw (IllegalLine (line p))).
  { intro Hge. destruct fuel as [| fuel]; [lia |].
    assert (Hnone : nth_error doc (line p) = None)
      by (apply nth_error_None; unfold TextEditor.getLineCount in Hge; lia).
    unfold getCurrentParagraphEnd, getCurrentParagraphBeginning. cbn [while].
    unfold paragraphEndSkipBlank, paragraphBeginSkipBlank, TextEditor.getLineAt.
    rewrite Hnone. split; reflexivity. }
  assert (Hbad : line p < TextEditor.getLineCount doc ->
            positionOptions p <> Exclusive -> positionOptions p <> Inclusive ->
            getCurrentParagraphEnd doc fuel p
              = Throw (UnhandledPositionOptions (positionOptions p))
            /\ getCurrentParagraphBeginning doc fuel p
              = (if line p =? 0 then Ok (getLineBegin p)
                 else Throw (UnhandledPositionOptions (positionOptions p)))).
  { intros Hlt HE HI. destruct fuel as [| fuel]; [lia |].
    destruct (nth_error_in_range doc _ Hlt) as [t Ht].
    unfold getCurrentParagraphEnd, getCurrentParagraphBeginning. cbn [while].
    rewrite (paragraphEndSkipBlank_value _ _ _ Ht).
    rewrite (paragraphBeginSkipBlank_value _ _ _ Ht). cbn [bind].
    split.
    - destruct (String.eqb t EmptyString
                && negb (S (line p) =? TextEditor.getLineCount doc)).
      + rewrite (getDown_unhandled doc p 0 HE HI). reflexivity.
      + cbn [bind while]. rewrite (paragraphEndInside_value _ _ _ Ht). cbn [bind].
        destruct (negb (String.eqb t EmptyString)
                  && (S (line p) <? TextEditor.getLineCount doc)).
        * rewrite (getDown_unhandled doc p 0 HE HI). reflexivity.
        * cbn [bind]. unfold getLineEnd.
          rewrite (getLineLength_unhandled doc _ _ HE HI). reflexivity.
    - destruct (Nat.eqb_spec (line p) 0) as [E | N].
      + cbn [negb]. rewrite andb_false_r. cbn [bind while].
        rewrite (paragraphBeginInside_value _ _ _ Ht). rewrite E. reflexivity.
      + cbn [negb]. rewrite andb_true_r.
        destruct (String.eqb t EmptyString) eqn:Et.
        * rewrite (getUp_unhandled doc p 0 HE HI N). reflexivity.
        * cbn [bind while]. rewrite (paragraphBeginInside_value _ _ _ Ht), Et.
          replace (0 <? line p) with true by (symmetry; apply Nat.ltb_lt; lia).
          cbn [negb andb bind]. rewrite (getUp_unhandled doc p 0 HE HI N). reflexivity. }
  split; [| split; [exact Hout | exact Hbad]].
  destruct (Nat.lt_ge_cases (line p) (TextEditor.getLineCount doc)) as [Hlt | Hge].
  - destruct (recognised_dec (positionOptions p)) as [Hr | [HE HI]].
    + assert (Hon : onDocument doc p) by (split; assumption).
      destruct (paragraphEnd_twice doc fuel p Hon Hfuel) as [e [He _]].
      destruct (paragraphBegin_twice doc fuel p Hon Hfuel) as [b [Hb _]].
      rewrite He, Hb. split; discriminate.
    + destruct (Hbad Hlt HE HI) as [-> ->].
      split; [discriminate | destruct (line p =? 0); discriminate].
  - destruct (Hout Hge) as [-> ->]. split; discriminate.
Qed.

Lemma paragraph_motions_always_answer_witness :
  TextEditor.getLineCount scenarioB < 4
  /\ getCurrentParagraphEnd scenarioB 4 (newPosition 1 0 None) <> OutOfFuel
  /\ getCurrentParagraphBeginning scenarioB 4 (newPosition 1 0 None) <> OutOfFuel.
Proof.
  assert (Hfuel : TextEditor.getLineCount scenarioB < 4) by (simpl; lia).
  split; [exact Hfuel |].
  exact (proj1 (paragraph_motions_always_answer scenarioB 4 (newPosition 1 0 None) Hfuel)).
Defined.

(** ** The scan loop collects the run starts *)

Lemma runLength_ext (f g : ascii -> bool) (s : list ascii) :
  (forall c, f c = g c) -> runLength f s = runLength g s.
Proof.
  intro H. induction s as [| c s IH]; simpl; [reflexivity |].
  rewrite H, IH. reflexivity.
Qed.

Lemma runLength_full_forallb (cls : ascii -> bool) (s : list ascii) :
  runLength cls s = List.length s -> forallb cls s = true.
Proof.
  induction s as [| c s IH]; simpl; [reflexivity |].
  destruct (cls c); [| discriminate].
  intro H. apply IH. lia.
Qed.

Lemma forallb_runLength_full (cls : ascii -> bool) (s : list ascii) :
  forallb cls s = true -> runLength cls s = List.length s.
Proof.
  induction s as [| c s IH]; simpl; [reflexivity |].
  destruct (cls c); [| discriminate].
  intro H. rewrite (IH H). reflexivity.
Qed.

(** The three branches, one by one. *)
Lemma matchAtoms_plus_value (cls : ascii -> bool) (s : list ascii) (i : nat) :
  matchAtoms [Repeat cls 1] s i
    = match runLength cls (skipn i s) with
      | O => None
      | S k => Some (i + S k)
      end.
Proof. simpl. destruct (runLength cls (skipn i s)); reflexivity. Qed.

Lemma matchAtoms_whole_line_value (cls : ascii -> bool) (s : list ascii) (i : nat) :
  matchAtoms [Bol; Repeat cls 0; Eol] s i
    = if (i =? 0) && forallb cls s then Some (List.length s) else None.
Proof.
  cbn -[Nat.eqb]. destruct (Nat.eqb_spec i 0) as [-> | _]; [| reflexivity].
  cbn [andb skipn].
  assert (Hback : forall k, k <= List.length s ->
            (fix backtrack (k0 : nat) : option nat :=
               match (if k0 =? List.length s then Some k0 else None) with
               | Some e => Some e
               | None => match k0 with
                         | 0 => None
                         | S k' => backtrack k'
                         end
               end) k
            = if k =? List.length s then Some (List.length s) else None).
  { induction k as [| k IH]; intro Hk.
    - destruct (Nat.eqb_spec 0 (List.length s)) as [E | N]; [rewrite <- E |]; reflexivity.
    - destruct (Nat.eqb_spec (S k) (List.length s)) as [E | N];
        [rewrite <- E; reflexivity |].
      rewrite IH by lia.
      destruct (Nat.eqb_spec k (List.length s)); [lia | reflexivity]. }
  etransitivity; [exact (Hback _ (runLength_le cls s)) |].
  destruct (forallb cls s) eqn:Hall.
  - rewrite (forallb_runLength_full _ _ Hall), Nat.eqb_refl. reflexivity.
  - destruct (Nat.eqb_spec (runLength cls s) (List.length s)) as [E | N];
      [| reflexivity].
    rewrite (runLength_full_forallb _ _ E) in Hall. discriminate.
Qed.

Lemma kindIs_word (characterSet : string) (c : ascii) :
  negb (isWhitespace c || inCharacterSet characterSet c)
    = kindIs characterSet (Some WordRun) c.
Proof.
  unfold kindIs, runKind.
  destruct (inCharacterSet characterSet c), (isWhitespace c); reflexivity.
Qed.

Lemma kindIs_punctuation (characterSet : string) (c : ascii) :
  inCharacterSet characterSet c = kindIs characterSet (Some PunctuationRun) c.
Proof.
  unfold kindIs, runKind.
  destruct (inCharacterSet characterSet c), (isWhitespace c); reflexivity.
Qed.

(** Off a line of tabs and spaces, a match at [i] is the run that begins
    at [i], if one does. *)
Lemma matchBranches_word_value (characterSet : string) (s : list ascii) (i : nat) :
  forallb isTabOrSpace s = false ->
  matchBranches (makeWordRegex characterSet) s i
    = match skipn i s with
      | [] => None
      | c :: _ =>
          match runKind characterSet c with
          | None => None
          | Some k =>
              Some (i + runLength (kindIs characterSet (Some k)) (skipn i s))
          end
      end.
Proof.
  intro Hblank. unfold makeWordRegex. cbn [matchBranches].
  rewrite matchAtoms_whole_line_value, Hblank, andb_false_r.
  rewrite !matchAtoms_plus_value.
  rewrite (runLength_ext _ _ (skipn i s) (kindIs_word characterSet)).
  rewrite (runLength_ext _ _ (skipn i s) (kindIs_punctuation characterSet)).
  destruct (skipn i s) as [| c suf]; [reflexivity |].
  cbn [runLength].
  assert (HW : kindIs characterSet (Some WordRun) c
               = sameKind (runKind characterSet c) (Some WordRun)) by reflexivity.
  assert (HP : kindIs characterSet (Some PunctuationRun) c
               = sameKind (runKind characterSet c) (Some PunctuationRun)) by reflexivity.
  rewrite HW, HP.
  destruct (runKind characterSet c) as [[|] |];
    cbn [runLength sameKind]; rewrite ?HW, ?HP; cbn [sameKind]; reflexivity.
Qed.

Lemma skipn_S_tail {A : Type} (s : list A) (i : nat) (c : A) (suf : list A) :
  skipn i s = c :: suf -> skipn (S i) s = suf.
Proof.
  intro H. change (S i) with (1 + i). rewrite <- skipn_skipn, H. reflexivity.
Qed.

Lemma execFrom_step (steps : nat) (regex : RegExp) (s : list ascii) (i : nat) :
  execFrom (S steps) regex s i
    = match matchBranches regex s i with
      | Some e => Some (i, e)
      | None => execFrom steps regex s (S i)
      end.
Proof. reflexivity. Qed.

(** The search of [exec] stops at the first run of the rest of the line. *)
Lemma execFrom_firstRun (characterSet : string) (s : list ascii) :
  forallb isTabOrSpace s = false ->
  forall suf i,
    skipn i s = suf ->
    execFrom (S (List.length suf)) (makeWordRegex characterSet) s i
      = match firstRun characterSet suf with
        | Some (n, m) => Some (i + n, i + n + m)
        | None => None
        end.
Proof.
  intro Hblank. induction suf as [| c suf IH]; intros i Hskip.
  - cbn [execFrom List.length]. rewrite (matchBranches_word_value _ _ _ Hblank), Hskip.
    reflexivity.
  - cbn [List.length firstRun]. rewrite execFrom_step.
    rewrite (matchBranches_word_value _ _ _ Hblank), Hskip.
    destruct (runKind characterSet c) as [k |].
    + rewrite !Nat.add_0_r. reflexivity.
    + rewrite (IH (S i) (skipn_S_tail _ _ _ _ Hskip)).
      destruct (firstRun characterSet suf) as [[n m] |]; [| reflexivity].
      f_equal. f_equal; lia.
Qed.

Lemma firstRun_bounds (characterSet : string) (s : list ascii) (n m : nat) :
  firstRun characterSet s = Some (n, m) -> 1 <= m /\ n + m <= List.length s.
Proof.
  revert n m. induction s as [| c s IH]; intros n m; cbn [firstRun]; [discriminate |].
  destruct (runKind characterSet c) as [k |] eqn:Ek.
  - intro H. injection H as <- <-.
    assert (Hk : kindIs characterSet (Some k) c = true)
      by (unfold kindIs; rewrite Ek; destruct k; reflexivity).
    pose proof (runLength_le (kindIs characterSet (Some k)) (c :: s)) as Hle.
    cbn [runLength] in Hle. rewrite Hk in *. cbn [List.length] in *. lia.
  - destruct (firstRun characterSet s) as [[n' m'] |]; [| discriminate].
    intro H. injection H as <- <-.
    destruct (IH n' m' eq_refl) as [H1 H2]. cbn [List.length]. lia.
Qed.

(** After a run of kind [k] the run starts are those of the rest of the
    line, wherever the run ends. *)
Lemma runStartsFrom_through_run (characterSet : string) (k : RunKind) :
  forall s offset,
    runStartsFrom characterSet (Some k) s offset
      = runStartsFrom characterSet None
          (skipn (runLength (kindIs characterSet (Some k)) s) s)
          (offset + runLength (kindIs characterSet (Some k)) s).
Proof.
  induction s as [| c s IH]; intro offset; [reflexivity |].
  cbn [runLength]. unfold kindIs at 1 3.
  destruct (runKind characterSet c) as [k' |] eqn:Ek.
  - destruct (sameKind (Some k') (Some k)) eqn:Es.
    + cbn [skipn runStartsFrom]. rewrite Ek, Es.
      assert (k' = k) by (destruct k', k; simpl in Es; congruence). subst k'.
      rewrite IH. f_equal. lia.
    + cbn [skipn]. rewrite Nat.add_0_r. cbn [runStartsFrom]. rewrite Ek, Es.
      destruct k'; reflexivity.
  - cbn [sameKind skipn]. rewrite Nat.add_0_r. cbn [runStartsFrom]. rewrite Ek.
    reflexivity.
Qed.

(** The run starts of a line are the start of its first run, followed by
    the run starts of what comes after that run. *)
Lemma runStartsFrom_firstRun (characterSet : string) :
  forall s offset,
    runStartsFrom characterSet None s offset
      = match firstRun characterSet s with
        | Some (n, m) =>
            (offset + n)
              :: runStartsFrom characterSet None (skipn (n + m) s) (offset + n + m)
        | None => []
        end.
Proof.
  induction s as [| c s IH]; intro offset; [reflexivity |].
  cbn [runStartsFrom firstRun].
  destruct (runKind characterSet c) as [k |] eqn:Ek.
  - replace (sameKind (Some k) None) with false by (destruct k; reflexivity).
    rewrite Nat.add_0_r. f_equal.
    cbn [runLength]. unfold kindIs at 1 3. rewrite Ek.
    replace (sameKind (Some k) (Some k)) with true by (destruct k; reflexivity).
    cbn [Nat.add skipn]. rewrite runStartsFrom_through_run. f_equal. lia.
  - rewrite IH. destruct (firstRun characterSet s) as [[n m] |]; [| reflexivity].
    cbn [Nat.add skipn]. f_equal; [lia |]. f_equal. lia.
Qed.

Lemma scanLoop_collects_run_starts (characterSet : string) (t : string) :
  forallb isTabOrSpace (list_ascii_of_string t) = false ->
  forall fuel lastIndex positions,
    lastIndex <= String.length t ->
    S (String.length t) - lastIndex < fuel ->
    scanLoop fuel (makeWordRegex characterSet) t index lastIndex positions
      = Ok (positions
              ++ runStartsFrom characterSet None
                   (skipn lastIndex (list_ascii_of_string t)) lastIndex)%list.
Proof.
  intro Hblank.
  induction fuel as [| fuel IH]; intros lastIndex positions Hle Hfuel; [lia |].
  cbn [scanLoop]. unfold exec.
  replace (S (List.length (list_ascii_of_string t)) - lastIndex)
    with (S (List.length (skipn lastIndex (list_ascii_of_string t))))
    by (rewrite length_skipn, length_list_ascii_of_string; lia).
  rewrite (execFrom_firstRun characterSet _ Hblank _ lastIndex eq_refl).
  rewrite runStartsFrom_firstRun.
  destruct (firstRun characterSet (skipn lastIndex (list_ascii_of_string t)))
    as [[n m] |] eqn:Ef.
  - destruct (firstRun_bounds _ _ _ _ Ef) as [Hm Hnm].
    rewrite length_skipn, length_list_ascii_of_string in Hnm.
    rewrite IH by lia. cbn [index].
    rewrite skipn_skipn, <- app_assoc. cbn [app].
    replace (n + m + lastIndex) with (lastIndex + n + m) by lia. reflexivity.
  - rewrite app_nil_r. reflexivity.
Qed.

(** For a character set whose bracketed class holds exactly the set's
    characters: on a non-empty line, with fuel above its length by two,
    the scan loop collects exactly the run starts of the line. *)
Lemma scanLoop_collects_runStarts_of_set :
  forall (characterSet : string) (t : string) (fuel : nat),
    t <> EmptyString ->
    S (String.length t) < fuel ->
    scanLoop fuel (makeWordRegex characterSet) t index 0 [] = Ok (runStarts characterSet t).
Proof.
  intros characterSet t fuel Hne Hfuel. unfold runStarts.
  destruct (forallb isTabOrSpace (list_ascii_of_string t)) eqn:Hblank.
  - assert (Hlen : 0 < String.length t) by (destruct t; [congruence | simpl; lia]).
    destruct fuel as [| [| fuel]]; [lia | lia |].
    assert (E0 : exec (makeWordRegex characterSet) t 0
                 = (Some (mkExecResult 0 (String.length t)), String.length t)).
    { unfold exec. rewrite Nat.sub_0_r. cbn [execFrom].
      unfold makeWordRegex. cbn [matchBranches].
      rewrite matchAtoms_whole_line_value, Hblank. cbn [Nat.eqb andb].
      rewrite length_list_ascii_of_string, Nat.sub_0_r. reflexivity. }
    assert (E1 : exec (makeWordRegex characterSet) t (String.length t) = (None, 0)).
    { unfold exec. rewrite length_list_ascii_of_string.
      replace (S (String.length t) - String.length t) with 1 by lia.
      cbn [execFrom]. unfold makeWordRegex. cbn [matchBranches].
      rewrite matchAtoms_whole_line_value, !matchAtoms_plus_value.
      replace (String.length t =? 0) with false by (symmetry; apply Nat.eqb_neq; lia).
      rewrite <- (length_list_ascii_of_string t), skipn_all. reflexivity. }
    cbn [scanLoop]. rewrite E0. cbn [app index]. rewrite E1. reflexivity.
  - rewrite (scanLoop_collects_run_starts characterSet t Hblank fuel 0 []);
      [reflexivity | lia | lia].
Qed.


(** ** Lines of spaces and tabs in the paragraph motions *)

(** C10: on a line whose text is not empty and consists of spaces and
    tabs only, neither paragraph motion takes the line for a blank one:
    the conditions of the first loops are false there and those of the
    second loops hold whenever a further line exists.  So
    [getCurrentParagraphEnd] from that line goes down over non-empty lines
    to the first empty line or to the last line, leaving the line whenever
    it is not the last one, and [getCurrentParagraphBeginning] goes up
    likewise to the first empty line or to line 0.  And from no position
    of the document does [getCurrentParagraphEnd] stop on that line unless
    it is the last line, nor [getCurrentParagraphBeginning] unless it is
    line 0. *)
Theorem whitespace_line_is_paragraph_text :
  forall (doc : Document) (fuel : nat) (pos : Position) (t : string),
    onDocument doc pos ->
    TextEditor.getLineCount doc < fuel ->
    nth_error doc (line pos) = Some t ->
    t <> EmptyString ->
    Forall (fun c => isTabOrSpace c = true) (list_ascii_of_string t) ->
    (paragraphEndSkipBlank doc pos = Ok false
     /\ paragraphBeginSkipBlank doc pos = Ok false
     /\ paragraphEndInside doc pos = Ok (S (line pos) <? TextEditor.getLineCount doc)
     /\ paragraphBeginInside doc pos = Ok (0 <? line pos))
    /\ (exists k len,
          getCurrentParagraphEnd doc fuel pos
            = Ok (newPosition k len (positionOptions pos))
          /\ line pos <= k
          /\ (S (line pos) < TextEditor.getLineCount doc -> line pos < k)
          /\ (forall i, line pos <= i < k -> nth_error doc i <> Some EmptyString)
          /\ (S k = TextEditor.getLineCount doc \/ nth_error doc k = Some EmptyString))
    /\ (exists k,
          getCurrentParagraphBeginning doc fuel pos
            = Ok (newPosition k 0 (positionOptions pos))
          /\ k <= line pos
          /\ (0 < line pos -> k < line pos)
          /\ (forall i, k < i <= line pos -> nth_error doc i <> Some EmptyString)
          /\ (k = 0 \/ nth_error doc k = Some EmptyString))
    /\ (forall p r,
          onDocument doc p ->
          getCurrentParagraphEnd doc fuel p = Ok r ->
          line r = line pos -> S (line pos) = TextEditor.getLineCount doc)
    /\ (forall p r,
          onDocument doc p ->
          getCurrentParagraphBeginning doc fuel p = Ok r ->
          line r = line pos -> line pos = 0).
Proof.
  intros doc fuel pos t Hon Hfuel Ht Hne _.
  destruct (nonempty_line_loop_conditions doc pos t Hon Ht Hne) as [Hg [Hstay _]].
  pose proof Hon as [Hl Hr]. fold (TextEditor.getLineCount doc) in Hl.
  split; [exact Hg |].
  destruct fuel as [| f]; [lia |].
  destruct (Hstay f) as [HstayE HstayB].
  split; [| split; [| split]].
  - destruct (descend_loop_passed doc (paragraphEndInside doc) pos
                (fun i => nth_error doc i <> Some EmptyString)
                (paragraphEndInside_passes doc) (S f) Hon ltac:(lia))
      as [s2 [Hrun2 [Hon2 [Ho2 [Hl2 [Hc2 HQ2]]]]]].
    pose proof Hon2 as [Hlt2 Hr2]. fold (TextEditor.getLineCount doc) in Hlt2.
    destruct (nth_error_in_range doc _ Hlt2) as [t2 Ht2].
    destruct (getLineLength_defined doc _ _ Hlt2 Hr2) as [len Hlen].
    assert (Hstop : S (line s2) = TextEditor.getLineCount doc
                    \/ nth_error doc (line s2) = Some EmptyString).
    { rewrite (paragraphEndInside_value _ _ _ Ht2) in Hc2.
      destruct (Nat.ltb_spec (S (line s2)) (TextEditor.getLineCount doc)) as [Hlt | Hge];
        [right | left; lia].
      rewrite andb_true_r in Hc2.
      assert (Hb : negb (String.eqb t2 EmptyString) = false) by congruence.
      apply negb_false_iff, String.eqb_eq in Hb. congruence. }
    exists (line s2), len. split.
    { unfold getCurrentParagraphEnd. rewrite HstayE. cbn [bind]. rewrite Hrun2.
      cbn [bind]. unfold getLineEnd. rewrite Hlen, Ho2. reflexivity. }
    split; [exact Hl2 |]. split; [| split; [exact HQ2 | exact Hstop]].
    intro Hnext. destruct (Nat.eq_dec (line s2) (line pos)) as [E | N]; [| lia].
    exfalso. rewrite E in Hstop. destruct Hstop as [H | H]; [lia |].
    rewrite Ht in H. injection H as H. exact (Hne H).
  - destruct (ascend_loop_passed doc (paragraphBeginInside doc) pos
                (fun i => nth_error doc i <> Some EmptyString)
                (paragraphBeginInside_passes doc) (S f) Hon ltac:(lia))
      as [s2 [Hrun2 [Hon2 [Ho2 [Hl2 [Hc2 HQ2]]]]]].
    pose proof Hon2 as [Hlt2 Hr2]. fold (TextEditor.getLineCount doc) in Hlt2.
    destruct (nth_error_in_range doc _ Hlt2) as [t2 Ht2].
    assert (Hstop : line s2 = 0 \/ nth_error doc (line s2) = Some EmptyString).
    { rewrite (paragraphBeginInside_value _ _ _ Ht2) in Hc2.
      destruct (Nat.ltb_spec 0 (line s2)) as [Hlt | Hge]; [right | left; lia].
      cbn [andb] in Hc2.
      assert (Hb : negb (String.eqb t2 EmptyString) = false) by congruence.
      apply negb_false_iff, String.eqb_eq in Hb. congruence. }
    exists (line s2). split.
    { unfold getCurrentParagraphBeginning. rewrite HstayB. cbn [bind]. rewrite Hrun2.
      cbn [bind]. unfold getLineBegin. rewrite Ho2. reflexivity. }
    split; [exact Hl2 |]. split; [| split; [exact HQ2 | exact Hstop]].
    intro Hprev. destruct (Nat.eq_dec (line s2) (line pos)) as [E | N]; [| lia].
    exfalso. rewrite E in Hstop. destruct Hstop as [H | H]; [lia |].
    rewrite Ht in H. injection H as H. exact (Hne H).
  - intros p r Hp Hrun Hline.
    destruct (paragraphEnd_run doc (S f) p Hp ltac:(lia))
      as [s1 [s2 [t2 [len [_ [_ [_ [_ [Ht2 [Hstop [_ Hres]]]]]]]]]]].
    rewrite Hres in Hrun. injection Hrun as <-. cbn [line] in Hline.
    rewrite Hline in *. rewrite Ht in Ht2. injection Ht2 as <-.
    destruct Hstop as [H | H]; [exfalso; exact (Hne H) | exact H].
  - intros p r Hp Hrun Hline. pose proof Hp as [Hlp _].
    fold (TextEditor.getLineCount doc) in Hlp.
    destruct (paragraphBegin_run doc (S f) p Hp ltac:(lia))
      as [s1 [s2 [t2 [_ [_ [_ [Ht2 [Hstop Hres]]]]]]]].
    rewrite Hres in Hrun. injection Hrun as <-. cbn [line] in Hline.
    rewrite Hline in *. rewrite Ht in Ht2. injection Ht2 as <-.
    destruct Hstop as [H | H]; [exfalso; exact (Hne H) | exact H].
Qed.

Lemma whitespace_line_is_paragraph_text_witness :
  onDocument whitespaceBetween (newPosition 1 0 Exclusive)
  /\ TextEditor.getLineCount whitespaceBetween < 4
  /\ nth_error whitespaceBetween 1 = Some spaceTabLine
  /\ spaceTabLine <> EmptyString
  /\ Forall (fun c => isTabOrSpace c = true) (list_ascii_of_string spaceTabLine)
  /\ (exists k len,
        getCurrentParagraphEnd whitespaceBetween 4 (newPosition 1 0 Exclusive)
          = Ok (newPosition k len Exclusive)
        /\ 1 < k)
  /\ (exists k,
        getCurrentParagraphBeginning whitespaceBetween 4 (newPosition 1 0 Exclusive)
          = Ok (newPosition k 0 Exclusive)
        /\ k < 1).
Proof.
  assert (Hon : onDocument whitespaceBetween (newPosition 1 0 Exclusive))
    by (split; [simpl; lia | left; reflexivity]).
  assert (Hfuel : TextEditor.getLineCount whitespaceBetween < 4) by (simpl; lia).
  assert (Hne : spaceTabLine <> EmptyString) by discriminate.
  assert (Hall : Forall (fun c => isTabOrSpace c = true)
                   (list_ascii_of_string spaceTabLine))
    by (repeat constructor).
  split; [exact Hon |]. split; [exact Hfuel |]. split; [reflexivity |].
  split; [exact Hne |]. split; [exact Hall |].
  destruct (whitespace_line_is_paragraph_text whitespaceBetween 4
              (newPosition 1 0 Exclusive) spaceTabLine Hon Hfuel eq_refl Hne Hall)
    as [_ [[k [len [He [_ [Hk _]]]]] [[k' [Hb [_ [Hk' _]]]] _]]].
  split.
  - exists k, len. split; [exact He | apply Hk; simpl; lia].
  - exists k'. split; [exact Hb | apply Hk'; simpl; lia].
Defined.

(** ** The run starts for the two expressions of the class *)

(** The only [-] of [NonWordCharacters] is its last character, so the
    bracketed classes built from it contain no range. *)
Example NonWordCharacters_has_no_range :
  last (list_ascii_of_string NonWordCharacters) " "%char = "-"%char
  /\ inCharacterSet
       (string_of_list_ascii (removelast (list_ascii_of_string NonWordCharacters)))
       "-"%char = false
  /\ String.length NonWordCharacters = 31.
Proof. repeat split; reflexivity. Qed.

(** X20: for the word expression and for the big-word expression of the
    class, on a non-empty line and with fuel above its length by two, the
    scan loop of [getWordLeftWithRegex] and [getWordRightWithRegex]
    collects exactly the run starts of the line, in order: offset 0 alone
    for a line of tabs and spaces, and otherwise every offset whose
    character is in [NonWordCharacters] or is not whitespace, and whose
    predecessor, if any, is not of the same kind.  For the big-word
    expression no character is punctuation, so the runs are the maximal
    runs of non-whitespace characters. *)
Theorem scanLoop_collects_runStarts :
  forall (t : string) (fuel : nat),
    t <> EmptyString ->
    S (String.length t) < fuel ->
    scanLoop fuel _nonWordCharRegex t index 0 [] = Ok (runStarts NonWordCharacters t)
    /\ scanLoop fuel _nonBigWordCharRegex t index 0 []
       = Ok (runStarts NonBigWordCharacters t)
    /\ (forall c, runKind NonBigWordCharacters c
                  = if isWhitespace c then None else Some WordRun).
Proof.
  intros t fuel Hne Hfuel. unfold _nonWordCharRegex, _nonBigWordCharRegex.
  split; [apply scanLoop_collects_runStarts_of_set; assumption |].
  split; [apply scanLoop_collects_runStarts_of_set; assumption |].
  intro c. reflexivity.
Qed.

Lemma scanLoop_collects_runStarts_witness :
  "if (true) {" <> EmptyString
  /\ S (String.length "if (true) {") < 13
  /\ scanLoop 13 _nonWordCharRegex "if (true) {" index 0 [] = Ok [0; 3; 4; 8; 10]
  /\ scanLoop 13 _nonBigWordCharRegex "if (true) {" index 0 [] = Ok [0; 3; 10].
Proof.
  assert (Hne : "if (true) {" <> EmptyString) by discriminate.
  assert (Hfuel : S (String.length "if (true) {") < 13) by (simpl; lia).
  split; [exact Hne |]. split; [exact Hfuel |].
  destruct (scanLoop_collects_runStarts "if (true) {" 13 Hne Hfuel) as [Hw [Hb _]].
  split; [exact Hw | exact Hb].
Defined.
